(** * Session registry and routing engine of the chat server

    A shallow embedding of the server half of [src/frontend/chat.js]
    (the [io.on('connection', ...)] block and the three in-memory
    collections it closes over), followed by the properties of the
    registry, the group directory and the message fan-out.

    Conventions.
    - A JavaScript [Map] is an association list in insertion order and a
      JavaScript [Set] a duplicate-free list in insertion order
      ([JsMap], [JsSet]); both orders are observable in the source
      ([Array.from], [[...users.entries()].find]).
    - The values travelling in payloads are [null], [undefined] or
      strings ([jval]).  An event arrives either with the payload object
      its handler destructures and, for [check_username], with an
      acknowledgement function, or without them.
    - A handler returns the new state and the list of emissions it
      performed, or [TypeError] when it dereferences [undefined]; the
      exception is uncaught in the source.
    - The transport is the part of socket.io the handlers rely on: the
      live sockets, the rooms each has joined, and the four ways of
      emitting ([io.emit], [io.to(r).emit], [socket.to(r).emit],
      [socket.emit]).  A socket enters the room named by its id when it
      connects; room names form one namespace, shared by socket ids,
      usernames ([socket.join(username)]) and group names
      ([socket.join(groupName)]); when a socket disconnects the transport
      takes it out of every room and of the namespace before the
      [disconnect] handler runs.
    - The clock read by [new Date().toLocaleTimeString(...)] is an input
      of the handler ([now]). *)

From stdpp Require Import base decidable option list strings.

Open Scope string_scope.
Open Scope list_scope.

(** ** JavaScript values carried by the protocol *)

Inductive jval : Type :=
| JNull
| JUndefined
| JStr (s : string).

#[global] Instance jval_eq_dec : EqDecision jval.
Proof. solve_decision. Defined.

(** [if (v)] / [v || d] on the three kinds of value. *)
Definition truthy (v : jval) : bool :=
  match v with
  | JStr s => negb (bool_decide (s = ""))
  | _ => false
  end.

Definition js_or (v d : jval) : jval := if truthy v then v else d.

(** ** [Map] and [Set] *)

Module JsMap.
Section ops.
Context {K V : Type} `{EqDecision K}.

Fixpoint get (k : K) (m : list (K * V)) : option V :=
  match m with
  | [] => None
  | (k', v) :: m' => if decide (k = k') then Some v else get k m'
  end.

Definition has (k : K) (m : list (K * V)) : bool :=
  match get k m with Some _ => true | None => false end.

(** [m.set(k, v)]: an existing key keeps its position. *)
Fixpoint set (k : K) (v : V) (m : list (K * V)) : list (K * V) :=
  match m with
  | [] => [(k, v)]
  | (k', v') :: m' =>
      if decide (k = k') then (k, v) :: m' else (k', v') :: set k v m'
  end.

Fixpoint delete (k : K) (m : list (K * V)) : list (K * V) :=
  match m with
  | [] => []
  | (k', v') :: m' =>
      if decide (k = k') then delete k m' else (k', v') :: delete k m'
  end.

Definition keys (m : list (K * V)) : list K := m.*1.
Definition values (m : list (K * V)) : list V := m.*2.

(** [[...m.entries()].find(p)?.[0]] *)
Fixpoint find_key (p : K -> V -> bool) (m : list (K * V)) : option K :=
  match m with
  | [] => None
  | (k, v) :: m' => if p k v then Some k else find_key p m'
  end.
End ops.
End JsMap.

Module JsSet.
Section ops.
Context {A : Type} `{EqDecision A}.

Definition has (x : A) (l : list A) : bool := bool_decide (x ∈ l).

Definition add (x : A) (l : list A) : list A :=
  if has x l then l else l ++ [x].

Fixpoint delete (x : A) (l : list A) : list A :=
  match l with
  | [] => []
  | y :: l' => if decide (x = y) then delete x l' else y :: delete x l'
  end.
End ops.
End JsSet.

(** ** Server state *)

(** Value of the [users] map: [{ username, avatar, status }]. *)
Record identity : Type := Identity {
  username : jval;
  avatar : jval;
  status : jval
}.

#[global] Instance identity_eq_dec : EqDecision identity.
Proof. solve_decision. Defined.

(** One live connection: the closure variable [currentUser] of its
    handler block and the rooms the socket has joined. *)
Record socket : Type := Socket {
  currentUser : jval;
  rooms : list jval
}.

Record server : Type := Server {
  users : list (string * identity);      (* Map: socket.id -> identity *)
  usernames : list jval;                 (* Set *)
  groups : list (jval * list jval);      (* Map: groupName -> Set(usernames) *)
  sockets : list (string * socket)       (* live connections *)
}.

Definition init : server := Server [] [] [] [].

Definition with_users (u : list (string * identity)) (s : server) : server :=
  Server u (usernames s) (groups s) (sockets s).
Definition with_usernames (u : list jval) (s : server) : server :=
  Server (users s) u (groups s) (sockets s).
Definition with_groups (g : list (jval * list jval)) (s : server) : server :=
  Server (users s) (usernames s) g (sockets s).
Definition with_sockets (k : list (string * socket)) (s : server) : server :=
  Server (users s) (usernames s) (groups s) k.

(** ** Outbound events *)

Inductive payload : Type :=
| ack_available (available : bool)
| update_users (list_ : list identity)
| update_groups (list_ : list (jval * list jval))
| receive_private (from_ to_ content type avatar_ : jval) (timestamp : string)
| receive_group (group from_ content type avatar_ : jval) (timestamp : string)
| display_typing (from_ : jval) (isGroup : bool) (group : jval)
| hide_typing (from_ : jval).

#[global] Instance payload_eq_dec : EqDecision payload.
Proof. solve_decision. Defined.

(** How a handler addresses an emission. *)
Inductive target : Type :=
| io_emit                         (* io.emit(...)            *)
| io_to (room : jval)             (* io.to(room).emit(...)   *)
| socket_to (room : jval)         (* socket.to(room).emit(...) *)
| socket_emit.                    (* socket.emit(...) and the ack callback *)

Definition emission : Type := target * payload.

Inductive outcome : Type :=
| Done (s : server) (out : list emission)
| TypeError.

(** ** Transport *)

Definition in_room (r : jval) (sk : socket) : bool := JsSet.has r (rooms sk).

(** [io.on('connection')]: the socket becomes live, in the room named by
    its own id, with [currentUser = null]. *)
Definition connection (id : string) (s : server) : server :=
  with_sockets (JsMap.set id (Socket JNull [JStr id]) (sockets s)) s.

(** [socket.join(room)] *)
Definition socket_join (id : string) (room : jval) (s : server) : server :=
  match JsMap.get id (sockets s) with
  | Some sk =>
      with_sockets
        (JsMap.set id (Socket (currentUser sk) (JsSet.add room (rooms sk)))
           (sockets s)) s
  | None => s
  end.

(** Assignment to the closure variable [currentUser]. *)
Definition set_currentUser (id : string) (u : jval) (s : server) : server :=
  match JsMap.get id (sockets s) with
  | Some sk => with_sockets (JsMap.set id (Socket u (rooms sk)) (sockets s)) s
  | None => s
  end.

(** The sockets an emission from socket [id] reaches.  [socket.to(r)]
    excludes the room named by the emitting socket's id. *)
Definition recipients (s : server) (id : string) (t : target) : list string :=
  match t with
  | io_emit => JsMap.keys (sockets s)
  | io_to r => JsMap.keys (filter (λ e, in_room r e.2 = true) (sockets s))
  | socket_to r =>
      JsMap.keys
        (filter (λ e, in_room r e.2 = true ∧ in_room (JStr id) e.2 = false)
           (sockets s))
  | socket_emit => [id]
  end.

Definition deliveries (s : server) (id : string) (out : list emission)
  : list (string * payload) :=
  flat_map (λ e : emission, (λ c, (c, e.2)) <$> recipients s id e.1) out.

(** ** Handlers *)

Definition getUserList (s : server) : list identity := JsMap.values (users s).

(** [{ name, members: Array.from(members) }] for every group. *)
Definition getGroupList (s : server) : list (jval * list jval) := groups s.

(** [[...users.entries()].find(([_, data]) => data.username === to)?.[0]] *)
Definition lookupByUsername (u : jval) (s : server) : option string :=
  JsMap.find_key (λ _ data, bool_decide (username data = u)) (users s).

(** [if (recipientSocketId)]: [undefined] and the empty string are falsy. *)
Definition truthy_id (r : option string) : option string :=
  match r with
  | Some rid => if bool_decide (rid = "") then None else Some rid
  | None => None
  end.

Definition on_check_username (s : server) (u : jval) : outcome :=
  if JsSet.has u (usernames s)
  then Done s [(socket_emit, ack_available false)]
  else Done s [(socket_emit, ack_available true)].

Definition on_login (s : server) (id : string) (u a st : jval) : outcome :=
  let s1 := set_currentUser id u s in
  let s2 := with_usernames (JsSet.add u (usernames s1)) s1 in
  let s3 :=
    with_users
      (JsMap.set id (Identity u a (js_or st (JStr "Online"))) (users s2)) s2 in
  let s4 := socket_join id u s3 in
  Done s4 [(io_emit, update_users (getUserList s4));
           (socket_emit, update_groups (getGroupList s4))].

Definition on_set_status (s : server) (id : string) (st : jval) : outcome :=
  match JsMap.get id (users s) with
  | Some d =>
      let s1 :=
        with_users
          (JsMap.set id (Identity (username d) (avatar d) st) (users s)) s in
      Done s1 [(io_emit, update_users (getUserList s1))]
  | None => Done s []
  end.

Definition on_private_message (now : string) (s : server) (id : string)
    (to_ content type : jval) : outcome :=
  let sender := JsMap.get id (users s) in
  let recipientSocketId := lookupByUsername to_ s in
  match sender with
  | None => TypeError
  | Some sd =>
      let msgData :=
        receive_private (username sd) to_ content type (avatar sd) now in
      Done s
        (match truthy_id recipientSocketId with
         | Some rid => [(io_to (JStr rid), msgData)]
         | None => []
         end ++ [(socket_emit, msgData)])
  end.

Definition on_group_message (now : string) (s : server) (id : string)
    (groupName content type : jval) : outcome :=
  let sender := JsMap.get id (users s) in
  match JsMap.get groupName (groups s) with
  | Some members =>
      match sender with
      | None => TypeError
      | Some sd =>
          if JsSet.has (username sd) members
          then Done s
                 [(io_to groupName,
                   receive_group groupName (username sd) content type
                     (avatar sd) now)]
          else Done s []
      end
  | None => Done s []
  end.

(** [typing] and [stop_typing] differ only in the signal they forward. *)
Definition relay (s : server) (id : string) (target_ type : jval)
    (private_signal group_signal : jval -> payload) : outcome :=
  let sender := JsMap.get id (users s) in
  if bool_decide (type = JStr "private") then
    match truthy_id (lookupByUsername target_ s) with
    | Some rid =>
        match sender with
        | None => TypeError
        | Some sd => Done s [(io_to (JStr rid), private_signal (username sd))]
        end
    | None => Done s []
    end
  else
    match sender with
    | None => TypeError
    | Some sd => Done s [(socket_to target_, group_signal (username sd))]
    end.

Definition on_typing (s : server) (id : string) (target_ type : jval)
  : outcome :=
  relay s id target_ type
    (λ f, display_typing f false JUndefined)
    (λ f, display_typing f true target_).

Definition on_stop_typing (s : server) (id : string) (target_ type : jval)
  : outcome :=
  relay s id target_ type hide_typing hide_typing.

Definition on_create_group (s : server) (id : string) (cu groupName : jval)
  : outcome :=
  if negb (JsMap.has groupName (groups s)) then
    let s1 := with_groups (JsMap.set groupName [cu] (groups s)) s in
    let s2 := socket_join id groupName s1 in
    Done s2 [(io_emit, update_groups (getGroupList s2))]
  else Done s [].

Definition on_join_group (s : server) (id : string) (cu groupName : jval)
  : outcome :=
  match JsMap.get groupName (groups s) with
  | Some members =>
      let s1 :=
        with_groups (JsMap.set groupName (JsSet.add cu members) (groups s)) s in
      let s2 := socket_join id groupName s1 in
      Done s2 [(io_emit, update_groups (getGroupList s2))]
  | None => Done s []
  end.

(** [groups.forEach(members => members.delete(currentUser))] *)
Definition remove_member (cu : jval) (g : list (jval * list jval))
  : list (jval * list jval) :=
  (λ e, (e.1, JsSet.delete cu e.2)) <$> g.

(** Body of the [disconnect] handler; it runs once the transport has
    already dropped the socket. *)
Definition on_disconnect (s : server) (id : string) (cu : jval) : outcome :=
  if truthy cu then
    let s1 := with_usernames (JsSet.delete cu (usernames s)) s in
    let s2 := with_users (JsMap.delete id (users s1)) s1 in
    let s3 := with_groups (remove_member cu (groups s2)) s2 in
    Done s3 [(io_emit, update_users (getUserList s3))]
  else Done s [].

(** The events whose handler destructures its first argument:
    [({ username, avatar, status }) => ...] and the like. *)
Inductive destructured : Type :=
| to_login
| to_private_message
| to_group_message
| to_typing
| to_stop_typing.

(** Inbound events of one connection.  The constructors named after the
    events carry the payload object the handler destructures and, for
    [check_username], the acknowledgement function; the last two are the
    same events arriving without them. *)
Inductive inbound : Type :=
| check_username (username_ : jval)
| login (username_ avatar_ status_ : jval)
| set_status (status_ : jval)
| private_message (to_ content type : jval)
| group_message (groupName content type : jval)
| typing (target_ type : jval)
| stop_typing (target_ type : jval)
| create_group (groupName : jval)
| join_group (groupName : jval)
| disconnect
| check_username_without_ack (username_ : jval)
| without_payload (e : destructured).

(** [check_username] when [callback] is not a function: the test of
    [usernames] has no effect and the call [callback(...)] throws. *)
Definition on_check_username_without_ack (s : server) (u : jval) : outcome :=
  if JsSet.has u (usernames s) then TypeError else TypeError.

(** A destructuring handler called with [undefined] or [null]: binding the
    parameters throws before the body runs. *)
Definition on_without_payload (s : server) (e : destructured) : outcome :=
  TypeError.

(** One handler invocation for socket [id]; [now] is the server clock
    rendered by [toLocaleTimeString].  A socket that is not live has no
    handlers. *)
Definition on_event (now : string) (s : server) (id : string) (m : inbound)
  : outcome :=
  match JsMap.get id (sockets s) with
  | None => Done s []
  | Some sk =>
      match m with
      | check_username u => on_check_username s u
      | login u a st => on_login s id u a st
      | set_status st => on_set_status s id st
      | private_message t c ty => on_private_message now s id t c ty
      | group_message g c ty => on_group_message now s id g c ty
      | typing t ty => on_typing s id t ty
      | stop_typing t ty => on_stop_typing s id t ty
      | create_group g => on_create_group s id (currentUser sk) g
      | join_group g => on_join_group s id (currentUser sk) g
      | disconnect =>
          on_disconnect (with_sockets (JsMap.delete id (sockets s)) s) id
            (currentUser sk)
      | check_username_without_ack u => on_check_username_without_ack s u
      | without_payload e => on_without_payload s e
      end
  end.

(** ** Runs *)

Inductive action : Type :=
| Connect (id : string)
| Recv (id : string) (now : string) (m : inbound).

(** A socket id handed out by the transport is a non-empty string that no
    live socket holds. *)
Definition fresh_id (id : string) (s : server) : Prop :=
  id ≠ "" ∧ JsMap.get id (sockets s) = None.

Inductive reachable : server -> Prop :=
| reach_init : reachable init
| reach_connect s id :
    reachable s -> fresh_id id s -> reachable (connection id s)
| reach_event s id now m s' out :
    reachable s -> on_event now s id m = Done s' out -> reachable s'.

#[global] Instance fresh_id_dec id s : Decision (fresh_id id s).
Proof. unfold fresh_id. apply _. Defined.

(** Executable runs, for concrete scenarios: a run stops at the first
    uncaught exception (and is undefined on a socket id the transport
    could not have handed out). *)
Definition exec (a : action) (s : server) : option server :=
  match a with
  | Connect id => if decide (fresh_id id s) then Some (connection id s) else None
  | Recv id now m =>
      match on_event now s id m with
      | Done s' _ => Some s'
      | TypeError => None
      end
  end.

Fixpoint run (l : list action) (s : server) : option server :=
  match l with
  | [] => Some s
  | a :: l' => match exec a s with Some s' => run l' s' | None => None end
  end.

(** ** State predicates *)

(** A live socket sits in the room named by its own id. *)
Definition own_room (k : list (string * socket)) : Prop :=
  ∀ id sk, (id, sk) ∈ k -> JStr id ∈ rooms sk.

Definition nonempty_ids {V : Type} (m : list (string * V)) : Prop :=
  ∀ id, id ∈ JsMap.keys m -> id ≠ "".

(** What the handlers maintain on every run: both maps have one entry per
    key, socket ids are non-empty, and a live socket sits in the room named
    by its id. *)
Record wf (s : server) : Prop := Wf {
  wf_users : NoDup (JsMap.keys (users s));
  wf_sockets : NoDup (JsMap.keys (sockets s));
  wf_user_ids : nonempty_ids (users s);
  wf_socket_ids : nonempty_ids (sockets s);
  wf_own_room : own_room (sockets s)
}.

(** A registry record with a truthy username was written by a socket that
    is still live and whose [currentUser] is that username. *)
Definition live_records (s : server) : Prop :=
  ∀ id d,
    JsMap.get id (users s) = Some d ->
    truthy (username d) = true ->
    ∃ sk, JsMap.get id (sockets s) = Some sk ∧ currentUser sk = username d.

(** [c] is a live socket in room [r]: what [io.to(r)] reaches. *)
Definition subscribed (s : server) (r : jval) (c : string) : Prop :=
  ∃ sk, (c, sk) ∈ sockets s ∧ r ∈ rooms sk.

(** Subscription to a room, read off the socket's own record. *)
Definition joined (s : server) (r : jval) (c : string) : Prop :=
  ∃ sk, JsMap.get c (sockets s) = Some sk ∧ r ∈ rooms sk.

(** Directory, group list and member lists hold every entry once. *)
Definition duplicate_free (s : server) : Prop :=
  NoDup (usernames s) ∧
  NoDup (JsMap.keys (groups s)) ∧
  ∀ g members, (g, members) ∈ groups s -> NoDup members.

(** The closure variable of a live socket, once set, is the username of
    the socket's registry record. *)
Definition names_agree (s : server) : Prop :=
  ∀ id sk,
    JsMap.get id (sockets s) = Some sk ->
    currentUser sk ≠ JNull ->
    ∃ d, JsMap.get id (users s) = Some d ∧ username d = currentUser sk.

(** [groups.has(g) && groups.get(g).has(u)] *)
Definition member_of (s : server) (g u : jval) : bool :=
  match JsMap.get g (groups s) with
  | Some members => JsSet.has u members
  | None => false
  end.

(** ** Scenarios *)

Definition noon : string := "12:00".

(** One user logged in as [u] on socket [s1], a second socket [s2] just
    connected. *)
Definition one_user : list action :=
  [Connect "s1"; Recv "s1" noon (login (JStr "u") JNull JUndefined);
   Connect "s2"].

Definition st_one_user : server :=
  Server
    [("s1", Identity (JStr "u") JNull (JStr "Online"))]
    [JStr "u"]
    []
    [("s1", Socket (JStr "u") [JStr "s1"; JStr "u"]);
     ("s2", Socket JNull [JStr "s2"])].

(** The same two sockets after [s2] has logged in as [u] too. *)
Definition st_two_users : server :=
  Server
    [("s1", Identity (JStr "u") JNull (JStr "Online"));
     ("s2", Identity (JStr "u") (JStr "pic") (JStr "Online"))]
    [JStr "u"]
    []
    [("s1", Socket (JStr "u") [JStr "s1"; JStr "u"]);
     ("s2", Socket (JStr "u") [JStr "s2"; JStr "u"])].

(** [st_two_users] after [s1] has gone. *)
Definition st_survivor : server :=
  Server
    [("s2", Identity (JStr "u") (JStr "pic") (JStr "Online"))]
    []
    []
    [("s2", Socket (JStr "u") [JStr "s2"; JStr "u"])].

(** One socket that logged in twice, as [x] and then as [y]. *)
Definition st_renamed : server :=
  Server
    [("s1", Identity (JStr "y") JNull (JStr "Online"))]
    [JStr "x"; JStr "y"]
    []
    [("s1", Socket (JStr "y") [JStr "s1"; JStr "x"; JStr "y"])].

(** [st_one_user] after [s2] has logged in as [v]; no group exists. *)
Definition st_two_names : server :=
  Server
    [("s1", Identity (JStr "u") JNull (JStr "Online"));
     ("s2", Identity (JStr "v") JNull (JStr "Online"))]
    [JStr "u"; JStr "v"]
    []
    [("s1", Socket (JStr "u") [JStr "s1"; JStr "u"]);
     ("s2", Socket (JStr "v") [JStr "s2"; JStr "v"])].

(** [s1] logged in as [u] and created group [g]; [s2] is connected and has
    never logged in. *)
Definition with_group : list action :=
  [Connect "s1"; Recv "s1" noon (login (JStr "u") JNull JUndefined);
   Recv "s1" noon (create_group (JStr "g")); Connect "s2"].

Definition st_with_group : server :=
  Server
    [("s1", Identity (JStr "u") JNull (JStr "Online"))]
    [JStr "u"]
    [(JStr "g", [JStr "u"])]
    [("s1", Socket (JStr "u") [JStr "s1"; JStr "u"; JStr "g"]);
     ("s2", Socket JNull [JStr "s2"])].

(** [st_with_group] once [s1] has disconnected. *)
Definition st_left_group : server :=
  Server [] [] [(JStr "g", [])] [("s2", Socket JNull [JStr "s2"])].

(** [st_with_group] after [s2] logged in as [v] and joined [g]. *)
Definition group_of_two : list action :=
  with_group ++
  [Recv "s2" noon (login (JStr "v") JNull JUndefined);
   Recv "s2" noon (join_group (JStr "g"))].

Definition st_group_of_two : server :=
  Server
    [("s1", Identity (JStr "u") JNull (JStr "Online"));
     ("s2", Identity (JStr "v") JNull (JStr "Online"))]
    [JStr "u"; JStr "v"]
    [(JStr "g", [JStr "u"; JStr "v"])]
    [("s1", Socket (JStr "u") [JStr "s1"; JStr "u"; JStr "g"]);
     ("s2", Socket (JStr "v") [JStr "s2"; JStr "v"; JStr "g"])].

(** [s1] is logged in as [a] and has created group [g]; [s2] is logged in
    under the name [g] and never joined any group. *)
Definition name_clash : list action :=
  [Connect "s1"; Recv "s1" noon (login (JStr "a") JNull JUndefined);
   Connect "s2"; Recv "s2" noon (login (JStr "g") JNull JUndefined);
   Recv "s1" noon (create_group (JStr "g"))].

Definition st_name_clash : server :=
  Server
    [("s1", Identity (JStr "a") JNull (JStr "Online"));
     ("s2", Identity (JStr "g") JNull (JStr "Online"))]
    [JStr "a"; JStr "g"]
    [(JStr "g", [JStr "a"])]
    [("s1", Socket (JStr "a") [JStr "s1"; JStr "a"; JStr "g"]);
     ("s2", Socket (JStr "g") [JStr "s2"; JStr "g"])].

(** [s0] logged in under the empty name and disconnected; then [s1] logged
    in as [a] and [s2] under the empty name.  Both are live. *)
Definition stale_name : list action :=
  [Connect "s0"; Recv "s0" noon (login (JStr "") JNull JUndefined);
   Recv "s0" noon disconnect;
   Connect "s1"; Recv "s1" noon (login (JStr "a") JNull JUndefined);
   Connect "s2"; Recv "s2" noon (login (JStr "") JNull JUndefined)].

Definition st_stale_name : server :=
  Server
    [("s0", Identity (JStr "") JNull (JStr "Online"));
     ("s1", Identity (JStr "a") JNull (JStr "Online"));
     ("s2", Identity (JStr "") JNull (JStr "Online"))]
    [JStr ""; JStr "a"]
    []
    [("s1", Socket (JStr "a") [JStr "s1"; JStr "a"]);
     ("s2", Socket (JStr "") [JStr "s2"; JStr ""])].

(** * The chat page

    The client half of [src/frontend/chat.js]: the view state of one page,
    its helpers and its socket handlers.  Effects on the document
    ([scrollToBottom], [prompt], the redirect to the login page) are not
    part of the state and are left out. *)

Module Client.

(** [`${v}`] inside a template literal. *)
Definition template (v : jval) : string :=
  match v with
  | JNull => "null"
  | JUndefined => "undefined"
  | JStr s => s
  end.

(** [activeChat.value]: [{ type, id }]. *)
Record chat : Type := Chat {
  type : jval;
  id : jval
}.

Record state : Type := State {
  myUsername : jval;                         (* sessionStorage item or null *)
  myAvatar : jval;
  users : list identity;
  groups : list (jval * list jval);
  activeChat : option chat;
  messages : list (string * list payload);   (* 'type:id' -> [] *)
  typingInfo : string
}.

Definition init (username_ avatar_ : jval) : state :=
  State username_ avatar_ [] [] None [] "".

Definition with_users (u : list identity) (st : state) : state :=
  State (myUsername st) (myAvatar st) u (groups st) (activeChat st)
    (messages st) (typingInfo st).
Definition with_groups (g : list (jval * list jval)) (st : state) : state :=
  State (myUsername st) (myAvatar st) (users st) g (activeChat st)
    (messages st) (typingInfo st).
Definition with_activeChat (c : option chat) (st : state) : state :=
  State (myUsername st) (myAvatar st) (users st) (groups st) c
    (messages st) (typingInfo st).
Definition with_messages (m : list (string * list payload)) (st : state)
  : state :=
  State (myUsername st) (myAvatar st) (users st) (groups st) (activeChat st)
    m (typingInfo st).
Definition with_typingInfo (t : string) (st : state) : state :=
  State (myUsername st) (myAvatar st) (users st) (groups st) (activeChat st)
    (messages st) t.

(** [`${activeChat.value.type}:${activeChat.value.id}`] *)
Definition key (c : chat) : string :=
  template (type c) +:+ ":" +:+ template (id c).

(** The [login] emitted when the page starts. *)
Definition login_event (st : state) : inbound :=
  login (myUsername st) (myAvatar st) JUndefined.

Definition selectChat (type_ id_ : jval) (st : state) : state :=
  if bool_decide (type_ = JStr "private") && bool_decide (id_ = myUsername st)
  then st
  else with_typingInfo "" (with_activeChat (Some (Chat type_ id_)) st).

(** [emitMessage(payload)]; [None] is the [TypeError] of reading
    [activeChat.value.type] while no chat is open. *)
Definition emitMessage (content type_ : jval) (st : state) : option inbound :=
  match activeChat st with
  | None => None
  | Some c =>
      if bool_decide (type c = JStr "private")
      then Some (private_message (id c) content type_)
      else Some (group_message (id c) content type_)
  end.

(** [handleTyping]: the event emitted at once (the [stop_typing] that
    follows is scheduled by a timer). *)
Definition handleTyping (st : state) : option inbound :=
  match activeChat st with
  | None => None
  | Some c => Some (typing (id c) (type c))
  end.

(** [isMember(groupName)]; [None] is the [undefined] returned when the
    group is not in the list. *)
Definition isMember (groupName : jval) (st : state) : option bool :=
  match JsMap.get groupName (groups st) with
  | Some members => Some (bool_decide (myUsername st ∈ members))
  | None => None
  end.

Definition addMessage (k : string) (msg : payload) (st : state) : state :=
  let old := default [] (JsMap.get k (messages st)) in
  with_messages (JsMap.set k (old ++ [msg]) (messages st)) st.

Definition currentMessages (st : state) : list payload :=
  match activeChat st with
  | None => []
  | Some c => default [] (JsMap.get (key c) (messages st))
  end.

Definition currentGroupMembers (st : state) : list jval :=
  match activeChat st with
  | None => []
  | Some c =>
      if bool_decide (type c = JStr "group")
      then default [] (JsMap.get (id c) (groups st))
      else []
  end.

Definition placeholder : string :=
  "https://via.placeholder.com/40/334155/ffffff?text=?".

Definition getAvatar (username_ : jval) (st : state) : jval :=
  if bool_decide (username_ = myUsername st) then myAvatar st
  else
    match List.find (λ x, bool_decide (username x = username_)) (users st) with
    | Some u => avatar u
    | None => JStr placeholder
    end.

(** The [socket.on] handlers of the page, by event. *)
Definition on (p : payload) (st : state) : state :=
  match p with
  | ack_available _ => st
  | update_users list_ =>
      with_users (filter (λ u, username u ≠ myUsername st) list_) st
  | update_groups list_ => with_groups list_ st
  | receive_private from_ to_ _ _ _ _ =>
      let other := if bool_decide (from_ = myUsername st) then to_ else from_ in
      addMessage ("private:" +:+ template other) p st
  | receive_group group _ _ _ _ _ =>
      addMessage ("group:" +:+ template group) p st
  | display_typing from_ isGroup group =>
      match activeChat st with
      | None => st
      | Some c =>
          if isGroup && bool_decide (type c = JStr "group")
             && bool_decide (id c = group)
          then
            if bool_decide (from_ ≠ myUsername st)
            then with_typingInfo (template from_ +:+ " is typing...") st
            else st
          else if negb isGroup && bool_decide (type c = JStr "private")
                  && bool_decide (id c = from_)
          then with_typingInfo (template from_ +:+ " is typing...") st
          else st
      end
  | hide_typing _ => with_typingInfo "" st
  end.

(** What a page can go through: chats selected by the user and events
    pushed by the server. *)
Inductive reachable (username_ avatar_ : jval) : state -> Prop :=
| reach_init : reachable username_ avatar_ (init username_ avatar_)
| reach_select st type_ id_ :
    reachable username_ avatar_ st ->
    reachable username_ avatar_ (selectChat type_ id_ st)
| reach_on st p :
    reachable username_ avatar_ st -> reachable username_ avatar_ (on p st).

End Client.

(** * Properties *)

(** ** Facts about [Map] and [Set] *)

Module JsMapFacts.
Section facts.
Context {K V : Type} `{EqDecision K}.
Implicit Types (k : K) (v : V) (m : list (K * V)).

Lemma get_set_eq k v m : JsMap.get k (JsMap.set k v m) = Some v.
Proof.
  induction m as [|[k' v'] m IH]; simpl.
  - by rewrite decide_True.
  - destruct (decide (k = k')) as [->|Hne]; simpl.
    + by rewrite decide_True.
    + by rewrite decide_False.
Qed.

Lemma get_set_ne k k' v m :
  k ≠ k' -> JsMap.get k' (JsMap.set k v m) = JsMap.get k' m.
Proof.
  intros Hne. induction m as [|[k0 v0] m IH]; simpl.
  - by rewrite decide_False.
  - destruct (decide (k = k0)) as [->|Hk]; simpl.
    + by rewrite !decide_False.
    + by rewrite IH.
Qed.

Lemma set_id k v m : JsMap.get k m = Some v -> JsMap.set k v m = m.
Proof.
  induction m as [|[k' v'] m IH]; simpl; [done|].
  destruct (decide (k = k')) as [->|Hne]; intros Hg.
  - by simplify_eq.
  - by rewrite IH.
Qed.

Lemma set_set k v v' m : JsMap.set k v (JsMap.set k v' m) = JsMap.set k v m.
Proof.
  induction m as [|[k0 v0] m IH]; simpl.
  - by rewrite decide_True.
  - destruct (decide (k = k0)) as [->|Hne]; simpl.
    + by rewrite decide_True.
    + by rewrite decide_False, IH.
Qed.

Lemma get_delete_eq k m : JsMap.get k (JsMap.delete k m) = None.
Proof.
  induction m as [|[k' v'] m IH]; simpl; [done|].
  destruct (decide (k = k')) as [->|Hne]; simpl; [done|].
  by rewrite decide_False.
Qed.

Lemma get_delete_ne k k' m :
  k ≠ k' -> JsMap.get k' (JsMap.delete k m) = JsMap.get k' m.
Proof.
  intros Hne. induction m as [|[k0 v0] m IH]; simpl; [done|].
  destruct (decide (k = k0)) as [->|Hk]; simpl.
  - by rewrite decide_False.
  - by rewrite IH.
Qed.

Lemma get_Some_elem_of k v m : JsMap.get k m = Some v -> (k, v) ∈ m.
Proof.
  induction m as [|[k' v'] m IH]; simpl; [done|].
  destruct (decide (k = k')) as [->|Hne]; intros Hg.
  - simplify_eq. apply elem_of_cons; by left.
  - apply elem_of_cons; right; auto.
Qed.

Lemma get_Some_key k v m : JsMap.get k m = Some v -> k ∈ JsMap.keys m.
Proof.
  intros Hg. apply get_Some_elem_of in Hg.
  unfold JsMap.keys. apply list_elem_of_fmap. by exists (k, v).
Qed.

Lemma get_None_key k m : JsMap.get k m = None -> k ∉ JsMap.keys m.
Proof.
  induction m as [|[k' v'] m IH]; simpl.
  - intros _ Hin. by apply elem_of_nil in Hin.
  - destruct (decide (k = k')) as [->|Hne]; [done|].
    intros Hg Hin. apply elem_of_cons in Hin as [?|?]; [done|]. by apply IH.
Qed.

Lemma elem_of_get k v m : NoDup (JsMap.keys m) -> (k, v) ∈ m -> JsMap.get k m = Some v.
Proof.
  induction m as [|[k' v'] m IH]; simpl.
  - intros _ Hin. by apply elem_of_nil in Hin.
  - intros Hnd Hin. apply NoDup_cons in Hnd as [Hk' Hnd].
    apply elem_of_cons in Hin as [Heq|Hin].
    + simplify_eq. by rewrite decide_True.
    + destruct (decide (k = k')) as [->|Hne]; [|by apply IH].
      exfalso. apply Hk'. apply list_elem_of_fmap. by exists (k', v).
Qed.

Lemma elem_of_set k v k' v' m :
  (k', v') ∈ JsMap.set k v m -> (k' = k ∧ v' = v) ∨ (k', v') ∈ m.
Proof.
  induction m as [|[k0 v0] m IH]; simpl.
  - intros Hin. apply list_elem_of_singleton in Hin. simplify_eq. by left.
  - destruct (decide (k = k0)) as [->|Hne]; intros Hin;
      apply elem_of_cons in Hin as [Heq|Hin].
    + simplify_eq. by left.
    + right. apply elem_of_cons. by right.
    + right. apply elem_of_cons. by left.
    + destruct (IH Hin) as [?|?]; [by left|].
      right. apply elem_of_cons. by right.
Qed.

Lemma elem_of_set_other k v k' v' m :
  k' ≠ k -> (k', v') ∈ m -> (k', v') ∈ JsMap.set k v m.
Proof.
  intros Hne. induction m as [|[k0 v0] m IH]; simpl.
  - intros Hin. by apply elem_of_nil in Hin.
  - intros Hin. apply elem_of_cons in Hin as [Heq|Hin].
    + simplify_eq. rewrite decide_False by done. apply elem_of_cons; by left.
    + destruct (decide (k = k0)) as [->|?]; apply elem_of_cons; right; auto.
Qed.

Lemma elem_of_set_new k v m : (k, v) ∈ JsMap.set k v m.
Proof. apply get_Some_elem_of, get_set_eq. Qed.

Lemma keys_set k v m :
  JsMap.keys (JsMap.set k v m) =
  if JsMap.has k m then JsMap.keys m else JsMap.keys m ++ [k].
Proof.
  unfold JsMap.has, JsMap.keys.
  induction m as [|[k0 v0] m IH]; csimpl; [done|].
  destruct (decide (k = k0)) as [->|Hne]; csimpl; [done|].
  rewrite IH. by destruct (JsMap.get k m).
Qed.

Lemma NoDup_keys_set k v m :
  NoDup (JsMap.keys m) -> NoDup (JsMap.keys (JsMap.set k v m)).
Proof.
  intros Hnd. rewrite keys_set. unfold JsMap.has.
  destruct (JsMap.get k m) eqn:Hg; [done|].
  apply NoDup_app. split_and!; [done| |apply NoDup_singleton].
  intros x Hx Hx'. apply list_elem_of_singleton in Hx' as ->.
  by apply get_None_key in Hg.
Qed.

Lemma elem_of_delete k k' v' m :
  (k', v') ∈ JsMap.delete k m -> k' ≠ k ∧ (k', v') ∈ m.
Proof.
  induction m as [|[k0 v0] m IH]; simpl.
  - intros Hin. by apply elem_of_nil in Hin.
  - destruct (decide (k = k0)) as [->|Hne]; intros Hin.
    + destruct (IH Hin) as [? ?]. split; [done|]. apply elem_of_cons; by right.
    + apply elem_of_cons in Hin as [Heq|Hin].
      * simplify_eq. split; [done|]. apply elem_of_cons; by left.
      * destruct (IH Hin) as [? ?]. split; [done|]. apply elem_of_cons; by right.
Qed.

Lemma elem_of_delete_other k k' v' m :
  k' ≠ k -> (k', v') ∈ m -> (k', v') ∈ JsMap.delete k m.
Proof.
  intros Hne. induction m as [|[k0 v0] m IH]; simpl; [done|].
  intros Hin. apply elem_of_cons in Hin as [Heq|Hin].
  - simplify_eq. rewrite decide_False by done. apply elem_of_cons; by left.
  - destruct (decide (k = k0)) as [->|?]; [auto|]. apply elem_of_cons; right; auto.
Qed.

Lemma NoDup_keys_delete k m :
  NoDup (JsMap.keys m) -> NoDup (JsMap.keys (JsMap.delete k m)).
Proof.
  unfold JsMap.keys.
  induction m as [|[k0 v0] m IH]; simpl; [done|].
  intros Hnd. apply NoDup_cons in Hnd as [Hk0 Hnd].
  destruct (decide (k = k0)) as [->|Hne]; [auto|].
  simpl. apply NoDup_cons. split; [|auto].
  intros Hin. apply Hk0.
  apply list_elem_of_fmap in Hin as [[k1 v1] [-> Hin]].
  apply elem_of_delete in Hin as [_ Hin].
  apply list_elem_of_fmap. by exists (k1, v1).
Qed.

Lemma find_key_Some p k m :
  JsMap.find_key p m = Some k -> ∃ v, (k, v) ∈ m ∧ p k v = true.
Proof.
  induction m as [|[k0 v0] m IH]; simpl; [done|].
  destruct (p k0 v0) eqn:Hp; intros Hf.
  - simplify_eq. exists v0. split; [apply elem_of_cons; by left|done].
  - destruct (IH Hf) as (v & Hin & Hpv). exists v.
    split; [apply elem_of_cons; by right|done].
Qed.

Lemma find_key_None p m :
  JsMap.find_key p m = None <-> ∀ k v, (k, v) ∈ m -> p k v = false.
Proof.
  induction m as [|[k0 v0] m IH]; simpl.
  - split; [|done]. intros _ k v Hin. by apply elem_of_nil in Hin.
  - destruct (p k0 v0) eqn:Hp; split.
    + done.
    + intros Hall. rewrite (Hall k0 v0) in Hp; [done|]. apply elem_of_cons; by left.
    + intros Hf k v Hin. apply elem_of_cons in Hin as [Heq|Hin].
      * by simplify_eq.
      * by apply IH.
    + intros Hall. apply IH. intros k v Hin. apply Hall.
      apply elem_of_cons; by right.
Qed.
End facts.
End JsMapFacts.

Module JsSetFacts.
Section facts.
Context {A : Type} `{EqDecision A}.
Implicit Types (x y : A) (l : list A).

Lemma has_true x l : JsSet.has x l = true <-> x ∈ l.
Proof. unfold JsSet.has. apply bool_decide_eq_true. Qed.

Lemma has_false x l : JsSet.has x l = false <-> x ∉ l.
Proof. unfold JsSet.has. apply bool_decide_eq_false. Qed.

Lemma add_id x l : x ∈ l -> JsSet.add x l = l.
Proof. intros Hin. unfold JsSet.add. by rewrite (proj2 (has_true x l)). Qed.

Lemma elem_of_add x y l : y ∈ JsSet.add x l <-> y = x ∨ y ∈ l.
Proof.
  unfold JsSet.add. destruct (JsSet.has x l) eqn:Hh.
  - apply has_true in Hh. split; [by right|]. by intros [->|?].
  - rewrite elem_of_app, list_elem_of_singleton. tauto.
Qed.

Lemma NoDup_add x l : NoDup l -> NoDup (JsSet.add x l).
Proof.
  intros Hnd. unfold JsSet.add. destruct (JsSet.has x l) eqn:Hh; [done|].
  apply has_false in Hh. apply NoDup_app. split_and!; [done| |apply NoDup_singleton].
  intros y Hy Hy'. apply list_elem_of_singleton in Hy' as ->. done.
Qed.

Lemma elem_of_remove x y l : y ∈ JsSet.delete x l <-> y ≠ x ∧ y ∈ l.
Proof.
  induction l as [|z l IH]; simpl.
  - split; [intros Hin; by apply elem_of_nil in Hin|].
    intros [_ Hin]. by apply elem_of_nil in Hin.
  - destruct (decide (x = z)) as [->|Hne].
    + rewrite IH, elem_of_cons. intuition congruence.
    + rewrite !elem_of_cons, IH. intuition congruence.
Qed.
End facts.
End JsSetFacts.

(** ** Well-formed states *)

Section preservation.
Import JsMapFacts.

Lemma nonempty_ids_set {V : Type} id (v : V) m :
  id ≠ "" -> nonempty_ids m -> nonempty_ids (JsMap.set id v m).
Proof.
  intros Hid Hm k Hk. rewrite keys_set in Hk.
  destruct (JsMap.has id m); [by apply Hm|].
  apply elem_of_app in Hk as [Hk|Hk]; [by apply Hm|].
  by apply list_elem_of_singleton in Hk as ->.
Qed.

Lemma nonempty_ids_delete {V : Type} id (m : list (string * V)) :
  nonempty_ids m -> nonempty_ids (JsMap.delete id m).
Proof.
  intros Hm k Hk. apply Hm.
  apply list_elem_of_fmap in Hk as [[k1 v1] [-> Hin]].
  apply elem_of_delete in Hin as [_ Hin].
  apply list_elem_of_fmap. by exists (k1, v1).
Qed.

Lemma own_room_set id sk k :
  JStr id ∈ rooms sk -> own_room k -> own_room (JsMap.set id sk k).
Proof.
  intros Hsk Hk id' sk' Hin.
  apply elem_of_set in Hin as [[-> ->]|Hin]; [done|by eapply Hk].
Qed.

Lemma own_room_delete id k : own_room k -> own_room (JsMap.delete id k).
Proof.
  intros Hk id' sk' Hin. apply elem_of_delete in Hin as [_ Hin]. by eapply Hk.
Qed.

Lemma wf_connection id s : wf s -> fresh_id id s -> wf (connection id s).
Proof.
  intros [] [Hid Hfresh]. split; simpl; try done.
  - by apply NoDup_keys_set.
  - by apply nonempty_ids_set.
  - apply own_room_set; [|done]. simpl. apply elem_of_cons; by left.
Qed.

Lemma wf_socket_join id r s : wf s -> wf (socket_join id r s).
Proof.
  intros Hwf. unfold socket_join.
  destruct (JsMap.get id (sockets s)) as [sk|] eqn:Hg; [|done].
  destruct Hwf. split; simpl; try done.
  - by apply NoDup_keys_set.
  - apply nonempty_ids_set; [|done].
    apply wf_socket_ids0. by eapply get_Some_key.
  - apply own_room_set; [|done]. simpl.
    apply JsSetFacts.elem_of_add. right. eapply wf_own_room0. by eapply get_Some_elem_of.
Qed.

Lemma wf_set_currentUser id u s : wf s -> wf (set_currentUser id u s).
Proof.
  intros Hwf. unfold set_currentUser.
  destruct (JsMap.get id (sockets s)) as [sk|] eqn:Hg; [|done].
  destruct Hwf. split; simpl; try done.
  - by apply NoDup_keys_set.
  - apply nonempty_ids_set; [|done].
    apply wf_socket_ids0. by eapply get_Some_key.
  - apply own_room_set; [|done]. simpl.
    eapply wf_own_room0. by eapply get_Some_elem_of.
Qed.

Lemma wf_with_usernames u s : wf s -> wf (with_usernames u s).
Proof. intros []. by split. Qed.

Lemma wf_with_groups g s : wf s -> wf (with_groups g s).
Proof. intros []. by split. Qed.

Lemma wf_users_set id d s :
  id ≠ "" -> wf s -> wf (with_users (JsMap.set id d (users s)) s).
Proof.
  intros Hid []. split; simpl; try done.
  - by apply NoDup_keys_set.
  - by apply nonempty_ids_set.
Qed.

Lemma wf_users_delete id s :
  wf s -> wf (with_users (JsMap.delete id (users s)) s).
Proof.
  intros []. split; simpl; try done.
  - by apply NoDup_keys_delete.
  - by apply nonempty_ids_delete.
Qed.

Lemma wf_sockets_delete id s :
  wf s -> wf (with_sockets (JsMap.delete id (sockets s)) s).
Proof.
  intros []. split; simpl; try done.
  - by apply NoDup_keys_delete.
  - by apply nonempty_ids_delete.
  - by apply own_room_delete.
Qed.

Lemma live_id_nonempty s id sk :
  wf s -> JsMap.get id (sockets s) = Some sk -> id ≠ "".
Proof. intros Hwf Hg. eapply wf_socket_ids; [done|]. by eapply get_Some_key. Qed.

(** Every handler maps well-formed states to well-formed states. *)
Lemma wf_on_event now s id m s' out :
  wf s -> on_event now s id m = Done s' out -> wf s'.
Proof.
  intros Hwf. unfold on_event.
  destruct (JsMap.get id (sockets s)) as [sk|] eqn:Hsk;
    [|intros; by simplify_eq].
  pose proof (live_id_nonempty _ _ _ Hwf Hsk) as Hid.
  destruct m; simpl.
  - unfold on_check_username. case_match; intros; by simplify_eq.
  - unfold on_login. intros; simplify_eq.
    apply wf_socket_join.
    match goal with |- wf (with_users (JsMap.set _ _ ?u) ?t) =>
      change u with (users t) end.
    apply wf_users_set; [done|].
    by apply wf_with_usernames, wf_set_currentUser.
  - unfold on_set_status. case_match; intros; simplify_eq; [|done].
    by apply wf_users_set.
  - unfold on_private_message. case_match; intros; by simplify_eq.
  - unfold on_group_message. repeat case_match; intros; by simplify_eq.
  - unfold on_typing, relay. repeat case_match; intros; by simplify_eq.
  - unfold on_stop_typing, relay. repeat case_match; intros; by simplify_eq.
  - unfold on_create_group. case_match; intros; simplify_eq; [|done].
    by apply wf_socket_join, wf_with_groups.
  - unfold on_join_group. case_match; intros; simplify_eq; [|done].
    by apply wf_socket_join, wf_with_groups.
  - unfold on_disconnect. case_match; intros; simplify_eq.
    + apply wf_with_groups.
      match goal with |- wf (with_users (JsMap.delete _ ?u) ?t) =>
        change u with (users t) end.
      apply wf_users_delete, wf_with_usernames. by apply wf_sockets_delete.
    + by apply wf_sockets_delete.
  - unfold on_check_username_without_ack. by case_match.
  - done.
Qed.

Lemma wf_init : wf init.
Proof.
  split; simpl; try apply NoDup_nil_2;
    intros ? **; match goal with H : _ ∈ _ |- _ => by apply elem_of_nil in H end.
Qed.

Lemma reachable_wf s : reachable s -> wf s.
Proof.
  induction 1 as [|s id Hr IH Hfresh|s id now m s' out Hr IH Hev].
  - apply wf_init.
  - by apply wf_connection.
  - by eapply wf_on_event.
Qed.
End preservation.

Lemma run_reachable l s s' : reachable s -> run l s = Some s' -> reachable s'.
Proof.
  revert s. induction l as [|a l IH]; simpl; intros s Hr Hrun.
  - by simplify_eq.
  - destruct (exec a s) as [s1|] eqn:Hex; [|done].
    apply (IH s1); [|done].
    destruct a as [id|id now m]; simpl in Hex.
    + destruct (decide (fresh_id id s)); [|done]. simplify_eq.
      by apply reach_connect.
    + destruct (on_event now s id m) as [s2 out|] eqn:Hev; [|done].
      simplify_eq. by eapply reach_event.
Qed.

(** ** Runs of the scenarios *)

Lemma run_one_user : run one_user init = Some st_one_user.
Proof. vm_compute. reflexivity. Qed.

Lemma reachable_one_user : reachable st_one_user.
Proof. exact (run_reachable one_user init _ reach_init run_one_user). Qed.

Lemma run_two_users :
  run (one_user ++ [Recv "s2" noon (login (JStr "u") (JStr "pic") JUndefined)])
    init = Some st_two_users.
Proof. vm_compute. reflexivity. Qed.

Lemma reachable_two_users : reachable st_two_users.
Proof. exact (run_reachable _ init _ reach_init run_two_users). Qed.

(** ** Duplicate login (C1) *)

(** C1, as stated, fails: with [u] registered to the live socket [s1], a
    login of [u] from [s2] is not rejected; it adds a second record to the
    Connection Registry. *)
Lemma login_duplicate_changes_registry :
  reachable st_one_user ∧
  JsSet.has (JStr "u") (usernames st_one_user) = true ∧
  JsMap.get "s1" (users st_one_user)
    = Some (Identity (JStr "u") JNull (JStr "Online")) ∧
  JsMap.has "s1" (sockets st_one_user) = true ∧
  on_event noon st_one_user "s2" (login (JStr "u") (JStr "pic") JUndefined)
    = Done st_two_users
        [(io_emit, update_users (getUserList st_two_users));
         (socket_emit, update_groups (getGroupList st_two_users))] ∧
  users st_two_users ≠ users st_one_user.
Proof.
  split; [apply reachable_one_user|].
  repeat split; try (vm_compute; reflexivity).
  intros Heq. discriminate Heq.
Qed.

(** C1, amended: whenever [u] is in the Username Directory and belongs to
    the record of another connection [c], a login of [u] from the live
    connection [id] is accepted.  No error is raised or emitted; the
    directory and [c]'s record stay as they were, the registry maps [id] to
    [{u, avatar, status || 'Online'}], and the two presence snapshots go
    out. *)
Theorem login_duplicate_accepted now s id sk c d u a st :
  JsMap.get id (sockets s) = Some sk ->
  JsSet.has u (usernames s) = true ->
  JsMap.get c (users s) = Some d ->
  username d = u ->
  c ≠ id ->
  ∃ s',
    on_event now s id (login u a st)
      = Done s' [(io_emit, update_users (getUserList s'));
                 (socket_emit, update_groups (getGroupList s'))] ∧
    usernames s' = usernames s ∧
    groups s' = groups s ∧
    users s'
      = JsMap.set id (Identity u a (js_or st (JStr "Online"))) (users s) ∧
    JsMap.get c (users s') = Some d ∧
    JsMap.get id (users s') = Some (Identity u a (js_or st (JStr "Online"))).
Proof.
  intros Hsk Hu%JsSetFacts.has_true Hc Hd Hne.
  unfold on_event. rewrite Hsk. unfold on_login.
  eexists. split; [reflexivity|].
  unfold socket_join, set_currentUser. rewrite Hsk. simpl.
  rewrite JsMapFacts.get_set_eq. simpl.
  rewrite (JsSetFacts.add_id _ _ Hu).
  split_and!; try done.
  - by rewrite JsMapFacts.get_set_ne.
  - by rewrite JsMapFacts.get_set_eq.
Qed.

Lemma login_duplicate_accepted_witness :
  ∃ s',
    on_event noon st_one_user "s2" (login (JStr "u") (JStr "pic") JUndefined)
      = Done s' [(io_emit, update_users (getUserList s'));
                 (socket_emit, update_groups (getGroupList s'))] ∧
    usernames s' = usernames st_one_user ∧
    groups s' = groups st_one_user ∧
    users s'
      = JsMap.set "s2"
          (Identity (JStr "u") (JStr "pic") (js_or JUndefined (JStr "Online")))
          (users st_one_user) ∧
    JsMap.get "s1" (users s')
      = Some (Identity (JStr "u") JNull (JStr "Online")) ∧
    JsMap.get "s2" (users s')
      = Some (Identity (JStr "u") (JStr "pic")
                (js_or JUndefined (JStr "Online"))).
Proof.
  apply (login_duplicate_accepted noon st_one_user "s2" (Socket JNull [JStr "s2"])
           "s1" (Identity (JStr "u") JNull (JStr "Online"))).
  - reflexivity.
  - vm_compute. reflexivity.
  - reflexivity.
  - reflexivity.
  - discriminate.
Defined.

(** ** One Identity per connection, several per username (C2) *)

(** C2, as stated, fails: after two logins under the same name the
    registry holds two Identities with username [u], on two distinct live
    connections, with no disconnect in between. *)
Lemma two_identities_one_username :
  reachable st_two_users ∧
  JsMap.has "s1" (sockets st_two_users) = true ∧
  JsMap.has "s2" (sockets st_two_users) = true ∧
  (username <$> JsMap.get "s1" (users st_two_users)) = Some (JStr "u") ∧
  (username <$> JsMap.get "s2" (users st_two_users)) = Some (JStr "u") ∧
  "s1" ≠ "s2".
Proof.
  split; [apply reachable_two_users|].
  repeat split; try (vm_compute; reflexivity). discriminate.
Qed.

(** C2, amended: in every reachable state the Connection Registry holds at
    most one Identity per connection handle.  (Nothing bounds the number
    of Identities per username.) *)
Theorem one_identity_per_connection s :
  reachable s ->
  NoDup (JsMap.keys (users s)) ∧
  ∀ id d d', (id, d) ∈ users s -> (id, d') ∈ users s -> d = d'.
Proof.
  intros Hr. pose proof (wf_users _ (reachable_wf _ Hr)) as Hnd.
  split; [done|]. intros id d d' Hd Hd'.
  apply (JsMapFacts.elem_of_get _ _ _ Hnd) in Hd, Hd'. congruence.
Qed.

Lemma one_identity_per_connection_witness :
  NoDup (JsMap.keys (users st_two_users)) ∧
  ∀ id d d',
    (id, d) ∈ users st_two_users -> (id, d') ∈ users st_two_users -> d = d'.
Proof.
  apply (one_identity_per_connection st_two_users).
  apply (run_reachable
           (one_user ++
            [Recv "s2" noon (login (JStr "u") (JStr "pic") JUndefined)])
           init); [apply reach_init|].
  vm_compute. reflexivity.
Defined.

(** ** Username Directory against the registry (C7) *)

(** C7 at two failing runs.  After [s1] and [s2] both logged in as [u] and
    [s1] disconnected, the registry still holds [u] (for [s2]) but the
    directory is empty; after one socket logged in as [x] and again as [y],
    the directory holds [x], which no registry record carries. *)
Theorem directory_out_of_sync :
  (run (one_user ++
        [Recv "s2" noon (login (JStr "u") (JStr "pic") JUndefined);
         Recv "s1" noon disconnect]) init = Some st_survivor ∧
   usernames st_survivor = [] ∧
   username <$> getUserList st_survivor = [JStr "u"]) ∧
  (run [Connect "s1"; Recv "s1" noon (login (JStr "x") JNull JUndefined);
        Recv "s1" noon (login (JStr "y") JNull JUndefined)] init
     = Some st_renamed ∧
   usernames st_renamed = [JStr "x"; JStr "y"] ∧
   username <$> getUserList st_renamed = [JStr "y"]).
Proof. repeat split; vm_compute; reflexivity. Qed.

(** ** Events from a connection without Identity (C5) *)

Lemma run_with_group : run with_group init = Some st_with_group.
Proof. vm_compute. reflexivity. Qed.

Lemma reachable_with_group : reachable st_with_group.
Proof. exact (run_reachable with_group init _ reach_init run_with_group). Qed.

(** C5 at a failing input: the live socket [s2] never logged in, so
    [users.get(socket.id)] is [undefined]; its [private_message],
    [group_message] to an existing group, and group [typing] /
    [stop_typing] all end in an uncaught [TypeError]. *)
Theorem unregistered_sender_throws :
  reachable st_with_group ∧
  JsMap.has "s2" (sockets st_with_group) = true ∧
  JsMap.get "s2" (users st_with_group) = None ∧
  on_event noon st_with_group "s2"
    (private_message (JStr "u") (JStr "hey") (JStr "text")) = TypeError ∧
  on_event noon st_with_group "s2"
    (group_message (JStr "g") (JStr "hi") (JStr "text")) = TypeError ∧
  on_event noon st_with_group "s2" (typing (JStr "g") (JStr "group"))
    = TypeError ∧
  on_event noon st_with_group "s2" (stop_typing (JStr "g") (JStr "group"))
    = TypeError.
Proof.
  split; [apply reachable_with_group|].
  repeat split; vm_compute; reflexivity.
Qed.

(** The same holds in any state: a live socket without registry record
    cannot send a private message. *)
Lemma private_message_unregistered now s id sk t c ty :
  JsMap.get id (sockets s) = Some sk ->
  JsMap.get id (users s) = None ->
  on_event now s id (private_message t c ty) = TypeError.
Proof.
  intros Hsk Hu. unfold on_event, on_private_message. by rewrite Hsk, Hu.
Qed.

(** ** Disconnect (C6) *)

(** C6 at a failing input: [s1], a member of [g], disconnects.  The
    username leaves the directory, the registry and the member set of [g],
    and [update_users] is broadcast; the group list has changed, yet no
    [update_groups] is emitted. *)
Theorem disconnect_without_update_groups :
  reachable st_with_group ∧
  on_event noon st_with_group "s1" disconnect
    = Done st_left_group [(io_emit, update_users [])] ∧
  getGroupList st_with_group = [(JStr "g", [JStr "u"])] ∧
  getGroupList st_left_group = [(JStr "g", [])].
Proof.
  split; [apply reachable_with_group|].
  repeat split; vm_compute; reflexivity.
Qed.

Lemma remove_member_spec cu g name members :
  (name, members) ∈ remove_member cu g -> cu ∉ members.
Proof.
  unfold remove_member. intros Hin.
  apply list_elem_of_fmap in Hin as [[n ms] [Heq _]]. simpl in Heq.
  simplify_eq. intros Hcu. by apply JsSetFacts.elem_of_remove in Hcu as [? _].
Qed.

(** What the handler does for every connection that logged in under a
    truthy name: the three removals, and one emission. *)
Lemma disconnect_registered now s id sk :
  JsMap.get id (sockets s) = Some sk ->
  truthy (currentUser sk) = true ->
  ∃ s',
    on_event now s id disconnect
      = Done s' [(io_emit, update_users (getUserList s'))] ∧
    (currentUser sk ∉ usernames s') ∧
    JsMap.get id (users s') = None ∧
    (∀ name members, (name, members) ∈ groups s' -> currentUser sk ∉ members) ∧
    JsMap.get id (sockets s') = None.
Proof.
  intros Hsk Hcu. unfold on_event, on_disconnect. rewrite Hsk, Hcu.
  eexists. split; [reflexivity|]. simpl. split_and!.
  - intros Hin. by apply JsSetFacts.elem_of_remove in Hin as [? _].
  - apply JsMapFacts.get_delete_eq.
  - intros name members. apply remove_member_spec.
  - apply JsMapFacts.get_delete_eq.
Qed.

(** A connection that never logged in leaves the three collections as
    they were. *)
Lemma disconnect_unregistered now s id sk :
  JsMap.get id (sockets s) = Some sk ->
  currentUser sk = JNull ->
  ∃ s',
    on_event now s id disconnect = Done s' [] ∧
    users s' = users s ∧ usernames s' = usernames s ∧ groups s' = groups s.
Proof.
  intros Hsk Hcu. unfold on_event, on_disconnect. rewrite Hsk, Hcu. simpl.
  by eexists.
Qed.

(** ** Joining a group that does not exist (C8) *)

(** C8: a [join_group] naming a group absent from the Group Directory
    returns normally, leaves the whole server state as it was and emits
    nothing: no [update_groups], no error. *)
Theorem join_group_absent now s id g :
  JsMap.has g (groups s) = false ->
  on_event now s id (join_group g) = Done s [].
Proof.
  unfold JsMap.has, on_event, on_join_group. intros Hg.
  destruct (JsMap.get id (sockets s)); [|done].
  by destruct (JsMap.get g (groups s)).
Qed.

Lemma join_group_absent_witness :
  on_event noon st_with_group "s2" (join_group (JStr "team"))
    = Done st_with_group [].
Proof.
  apply (join_group_absent noon st_with_group "s2" (JStr "team")).
  vm_compute. reflexivity.
Defined.

(** ** Create and join (C9) *)

Lemma server_eta s :
  Server (users s) (usernames s) (groups s) (sockets s) = s.
Proof. by destruct s. Qed.

(** [socket.join] keeps the closure variable and the rooms already joined
    of every socket, and puts the joining socket in the room. *)
Lemma socket_join_get id' r' s id sk :
  JsMap.get id (sockets s) = Some sk ->
  ∃ sk',
    JsMap.get id (sockets (socket_join id' r' s)) = Some sk' ∧
    currentUser sk' = currentUser sk ∧
    (∀ r, r ∈ rooms sk -> r ∈ rooms sk') ∧
    (id = id' -> r' ∈ rooms sk').
Proof.
  intros Hsk. unfold socket_join.
  destruct (JsMap.get id' (sockets s)) as [sk0|] eqn:Hsk0; simpl.
  - destruct (decide (id' = id)) as [->|Hne].
    + rewrite JsMapFacts.get_set_eq. eexists. split; [done|].
      simplify_eq. simpl. split_and!; [done| |].
      * intros r Hr. apply JsSetFacts.elem_of_add. by right.
      * intros _. apply JsSetFacts.elem_of_add. by left.
    + rewrite JsMapFacts.get_set_ne by done. exists sk.
      split_and!; try done; intros ->; congruence.
  - exists sk. split_and!; try done; intros ->; congruence.
Qed.

(** A [join_group] from a socket that is already in the room, under a
    name that is already a member, re-broadcasts the group list and changes
    nothing. *)
Lemma join_group_member_noop now s id sk g members :
  JsMap.get id (sockets s) = Some sk ->
  JsMap.get g (groups s) = Some members ->
  currentUser sk ∈ members ->
  g ∈ rooms sk ->
  on_event now s id (join_group g)
    = Done s [(io_emit, update_groups (getGroupList s))].
Proof.
  intros Hsk Hg Hcu Hroom. unfold on_event, on_join_group. rewrite Hsk, Hg.
  rewrite (JsSetFacts.add_id _ _ Hcu), (JsMapFacts.set_id _ _ _ Hg).
  unfold socket_join. simpl. rewrite Hsk.
  rewrite (JsSetFacts.add_id _ _ Hroom).
  assert (Socket (currentUser sk) (rooms sk) = sk) as -> by by destruct sk.
  rewrite (JsMapFacts.set_id _ _ _ Hsk).
  unfold with_sockets, with_groups. simpl. by rewrite server_eta.
Qed.


Lemma run_two_names :
  run (one_user ++ [Recv "s2" noon (login (JStr "v") JNull JUndefined)]) init
    = Some st_two_names.
Proof. vm_compute. reflexivity. Qed.


(** ** Fan-out *)

Lemma recipients_io_to s id r c :
  c ∈ recipients s id (io_to r) <-> subscribed s r c.
Proof.
  unfold recipients, subscribed, JsMap.keys, in_room. split.
  - intros Hin. apply list_elem_of_fmap in Hin as [[c' sk] [-> Hin]].
    apply list_elem_of_filter in Hin as [Hr Hin]. simpl in Hr.
    exists sk. split; [done|]. by apply JsSetFacts.has_true.
  - intros (sk & Hin & Hr). apply list_elem_of_fmap. exists (c, sk).
    split; [done|]. apply list_elem_of_filter. split; [|done].
    simpl. by apply JsSetFacts.has_true.
Qed.

Lemma recipients_socket_to s id r c :
  c ∈ recipients s id (socket_to r) <->
  ∃ sk, (c, sk) ∈ sockets s ∧ r ∈ rooms sk ∧ JStr id ∉ rooms sk.
Proof.
  unfold recipients, JsMap.keys, in_room. split.
  - intros Hin. apply list_elem_of_fmap in Hin as [[c' sk] [-> Hin]].
    apply list_elem_of_filter in Hin as [[Hr Hid] Hin]. simpl in Hr, Hid.
    exists sk. split_and!; [done| |].
    + by apply JsSetFacts.has_true.
    + by apply JsSetFacts.has_false.
  - intros (sk & Hin & Hr & Hid). apply list_elem_of_fmap. exists (c, sk).
    split; [done|]. apply list_elem_of_filter. split; [|done]. simpl. split.
    + by apply JsSetFacts.has_true.
    + by apply JsSetFacts.has_false.
Qed.

Lemma deliveries_one s id t p :
  deliveries s id [(t, p)] = (λ c, (c, p)) <$> recipients s id t.
Proof. unfold deliveries. simpl. apply app_nil_r. Qed.

Lemma elem_of_deliveries_one s id t p c q :
  (c, q) ∈ deliveries s id [(t, p)] <-> q = p ∧ c ∈ recipients s id t.
Proof.
  rewrite deliveries_one, list_elem_of_fmap. split.
  - intros (c' & Heq & Hin). by simplify_eq.
  - intros [-> Hin]. by exists c.
Qed.

(** ** Group typing signals (C10) *)

(** C10: a [typing] or [stop_typing] event of a registered sender whose
    type is not ['private'] (in particular ['group']) and that names [g]
    changes no state, and its [display_typing] / [hide_typing] signal
    reaches exactly the live connections subscribed to room [g] that are not
    in the room of the sender's socket id; the sender's own connection is
    never among them. *)
Theorem group_typing_excludes_sender now s id sk sd g ty :
  reachable s ->
  JsMap.get id (sockets s) = Some sk ->
  JsMap.get id (users s) = Some sd ->
  ty ≠ JStr "private" ->
  ∃ out_typing out_stop,
    on_event now s id (typing g ty) = Done s out_typing ∧
    on_event now s id (stop_typing g ty) = Done s out_stop ∧
    (∀ c p, (c, p) ∈ deliveries s id out_typing <->
       p = display_typing (username sd) true g ∧
       ∃ skc, (c, skc) ∈ sockets s ∧ g ∈ rooms skc ∧ JStr id ∉ rooms skc) ∧
    (∀ c p, (c, p) ∈ deliveries s id out_stop <->
       p = hide_typing (username sd) ∧
       ∃ skc, (c, skc) ∈ sockets s ∧ g ∈ rooms skc ∧ JStr id ∉ rooms skc) ∧
    (∀ p, (id, p) ∉ deliveries s id out_typing) ∧
    (∀ p, (id, p) ∉ deliveries s id out_stop).
Proof.
  intros Hr Hsk Hsd Hty.
  pose proof (wf_own_room _ (reachable_wf _ Hr)) as Hown.
  assert (Hself : ∀ p q,
    (id, q) ∉ deliveries s id [(socket_to g, p)]).
  { intros p q Hin. apply elem_of_deliveries_one in Hin as [_ Hin].
    apply recipients_socket_to in Hin as (skc & Hin & _ & Hid).
    apply Hid. by eapply Hown. }
  exists [(socket_to g, display_typing (username sd) true g)],
         [(socket_to g, hide_typing (username sd))].
  split_and!.
  - unfold on_event, on_typing, relay. rewrite Hsk, Hsd.
    by rewrite bool_decide_eq_false_2.
  - unfold on_event, on_stop_typing, relay. rewrite Hsk, Hsd.
    by rewrite bool_decide_eq_false_2.
  - intros c p. by rewrite elem_of_deliveries_one, recipients_socket_to.
  - intros c p. by rewrite elem_of_deliveries_one, recipients_socket_to.
  - intros p. apply Hself.
  - intros p. apply Hself.
Qed.

Lemma run_group_of_two : run group_of_two init = Some st_group_of_two.
Proof. vm_compute. reflexivity. Qed.

Lemma group_typing_excludes_sender_witness :
  ∃ out_typing out_stop,
    on_event noon st_group_of_two "s1" (typing (JStr "g") (JStr "group"))
      = Done st_group_of_two out_typing ∧
    on_event noon st_group_of_two "s1" (stop_typing (JStr "g") (JStr "group"))
      = Done st_group_of_two out_stop ∧
    (∀ c p, (c, p) ∈ deliveries st_group_of_two "s1" out_typing <->
       p = display_typing (JStr "u") true (JStr "g") ∧
       ∃ skc, (c, skc) ∈ sockets st_group_of_two ∧ JStr "g" ∈ rooms skc ∧
              JStr "s1" ∉ rooms skc) ∧
    (∀ c p, (c, p) ∈ deliveries st_group_of_two "s1" out_stop <->
       p = hide_typing (JStr "u") ∧
       ∃ skc, (c, skc) ∈ sockets st_group_of_two ∧ JStr "g" ∈ rooms skc ∧
              JStr "s1" ∉ rooms skc) ∧
    (∀ p, (("s1", p) : string * payload) ∉ deliveries st_group_of_two "s1" out_typing) ∧
    (∀ p, (("s1", p) : string * payload) ∉ deliveries st_group_of_two "s1" out_stop).
Proof.
  apply (group_typing_excludes_sender noon st_group_of_two "s1"
           (Socket (JStr "u") [JStr "s1"; JStr "u"; JStr "g"])
           (Identity (JStr "u") JNull (JStr "Online")) (JStr "g")
           (JStr "group")).
  - apply (run_reachable group_of_two init); [apply reach_init|].
    vm_compute. reflexivity.
  - reflexivity.
  - reflexivity.
  - discriminate.
Defined.

(** ** Records of truthy usernames belong to live sockets *)

Lemma set_currentUser_get id' u s id sk :
  JsMap.get id (sockets s) = Some sk ->
  ∃ sk',
    JsMap.get id (sockets (set_currentUser id' u s)) = Some sk' ∧
    currentUser sk' = (if decide (id' = id) then u else currentUser sk).
Proof.
  intros Hsk. unfold set_currentUser.
  destruct (decide (id' = id)) as [->|Hne].
  - rewrite Hsk. simpl. rewrite JsMapFacts.get_set_eq. by eexists.
  - destruct (JsMap.get id' (sockets s)); simpl.
    + rewrite JsMapFacts.get_set_ne by done. by exists sk.
    + by exists sk.
Qed.

Lemma live_records_connection id s :
  fresh_id id s -> live_records s -> live_records (connection id s).
Proof.
  intros [_ Hfresh] Hl id' d Hd Ht. simpl in Hd.
  destruct (Hl id' d Hd Ht) as (sk & Hsk & Hcu).
  exists sk. split; [|done]. simpl.
  rewrite JsMapFacts.get_set_ne; [done|]. intros ->. congruence.
Qed.

(** The state a login leaves behind, in closed form. *)
Lemma on_login_eq s id sk u a st :
  JsMap.get id (sockets s) = Some sk ->
  on_login s id u a st =
  let s' :=
    Server
      (JsMap.set id (Identity u a (js_or st (JStr "Online"))) (users s))
      (JsSet.add u (usernames s))
      (groups s)
      (JsMap.set id (Socket u (JsSet.add u (rooms sk))) (sockets s)) in
  Done s' [(io_emit, update_users (getUserList s'));
           (socket_emit, update_groups (getGroupList s'))].
Proof.
  intros Hsk. unfold on_login, socket_join, set_currentUser.
  rewrite Hsk. simpl. rewrite JsMapFacts.get_set_eq. simpl.
  by rewrite JsMapFacts.set_set.
Qed.

Lemma live_records_login s id sk u a st :
  JsMap.get id (sockets s) = Some sk ->
  live_records s ->
  ∀ s' out, on_login s id u a st = Done s' out -> live_records s'.
Proof.
  intros Hsk Hl s' out Hev. rewrite (on_login_eq _ _ _ _ _ _ Hsk) in Hev.
  simpl in Hev. simplify_eq.
  intros id' d Hd Ht. simpl in Hd |- *.
  destruct (decide (id = id')) as [<-|Hne].
  - rewrite JsMapFacts.get_set_eq in Hd. simplify_eq. simpl.
    rewrite JsMapFacts.get_set_eq. by eexists.
  - rewrite JsMapFacts.get_set_ne in Hd by done.
    rewrite JsMapFacts.get_set_ne by done. by apply Hl.
Qed.

Lemma live_records_join id r s : live_records s -> live_records (socket_join id r s).
Proof.
  intros Hl id' d Hd Ht.
  assert (users (socket_join id r s) = users s) as Hu.
  { unfold socket_join. by destruct (JsMap.get id (sockets s)). }
  rewrite Hu in Hd. destruct (Hl id' d Hd Ht) as (sk & Hsk & Hcu).
  destruct (socket_join_get id r s id' sk Hsk) as (sk' & Hsk' & Hcu' & _).
  exists sk'. split; [done|congruence].
Qed.

Lemma live_records_disconnect s id sk :
  JsMap.get id (sockets s) = Some sk ->
  live_records s ->
  ∀ s' out,
    on_disconnect (with_sockets (JsMap.delete id (sockets s)) s) id
      (currentUser sk) = Done s' out ->
    live_records s'.
Proof.
  intros Hsk Hl s' out. unfold on_disconnect.
  destruct (truthy (currentUser sk)) eqn:Hcu; intros Hev; simplify_eq;
    intros id' d Hd Ht; simpl in Hd |- *.
  - destruct (decide (id = id')) as [<-|Hne].
    + by rewrite JsMapFacts.get_delete_eq in Hd.
    + rewrite JsMapFacts.get_delete_ne in Hd by done.
      destruct (Hl id' d Hd Ht) as (sk' & Hsk' & Hcu').
      exists sk'. by rewrite JsMapFacts.get_delete_ne.
  - destruct (Hl id' d Hd Ht) as (sk' & Hsk' & Hcu').
    destruct (decide (id = id')) as [<-|Hne].
    + simplify_eq. congruence.
    + exists sk'. by rewrite JsMapFacts.get_delete_ne.
Qed.

Lemma live_records_on_event now s id m s' out :
  live_records s -> on_event now s id m = Done s' out -> live_records s'.
Proof.
  intros Hl. unfold on_event.
  destruct (JsMap.get id (sockets s)) as [sk|] eqn:Hsk;
    [|intros; by simplify_eq].
  destruct m; simpl.
  - unfold on_check_username. case_match; intros; by simplify_eq.
  - by eapply live_records_login.
  - unfold on_set_status. destruct (JsMap.get id (users s)) as [d0|] eqn:Hd0;
      intros; simplify_eq; [|done].
    intros id' d Hd Ht. simpl in Hd |- *.
    destruct (decide (id = id')) as [<-|Hne].
    + rewrite JsMapFacts.get_set_eq in Hd. simplify_eq. simpl in Ht |- *.
      by apply Hl.
    + rewrite JsMapFacts.get_set_ne in Hd by done. by apply Hl.
  - unfold on_private_message. case_match; intros; by simplify_eq.
  - unfold on_group_message. repeat case_match; intros; by simplify_eq.
  - unfold on_typing, relay. repeat case_match; intros; by simplify_eq.
  - unfold on_stop_typing, relay. repeat case_match; intros; by simplify_eq.
  - unfold on_create_group. case_match; intros; simplify_eq; [|done].
    by apply live_records_join.
  - unfold on_join_group. case_match; intros; simplify_eq; [|done].
    by apply live_records_join.
  - by eapply live_records_disconnect.
  - unfold on_check_username_without_ack. by case_match.
  - done.
Qed.

Lemma reachable_live_records s : reachable s -> live_records s.
Proof.
  induction 1 as [|s id Hr IH Hfresh|s id now m s' out Hr IH Hev].
  - intros id d Hd. done.
  - by apply live_records_connection.
  - by eapply live_records_on_event.
Qed.

(** ** Private messages (C4) *)

Lemma lookupByUsername_Some t s rid :
  lookupByUsername t s = Some rid ->
  ∃ d, (rid, d) ∈ users s ∧ username d = t.
Proof.
  unfold lookupByUsername. intros Hf.
  apply JsMapFacts.find_key_Some in Hf as (d & Hin & Hp).
  exists d. split; [done|]. by apply bool_decide_eq_true in Hp.
Qed.

Lemma lookupByUsername_None t s :
  lookupByUsername t s = None <-> ∀ c d, (c, d) ∈ users s -> username d ≠ t.
Proof.
  unfold lookupByUsername. rewrite JsMapFacts.find_key_None.
  split; intros Hall c d Hin; specialize (Hall c d Hin).
  - by apply bool_decide_eq_false in Hall.
  - by apply bool_decide_eq_false.
Qed.

(** Where a private message goes.  A [private_message] to [t] from a
    registered sender returns normally and changes no state.  Its
    emissions are the envelope to the room of the connection the registry
    resolves [t] to, present exactly when some record with username [t] is
    in the registry, followed by one echo of the same envelope to the
    sender's own socket; nothing else, and no error event, is emitted.
    The resolved connection receives the envelope whenever it is live,
    which it is for every truthy [t]; with no record named [t] the echo
    is the only delivery. *)
Theorem private_message_routing now s id sk sd t content ty :
  reachable s ->
  JsMap.get id (sockets s) = Some sk ->
  JsMap.get id (users s) = Some sd ->
  let env := receive_private (username sd) t content ty (avatar sd) now in
  ∃ out,
    on_event now s id (private_message t content ty) = Done s out ∧
    match lookupByUsername t s with
    | Some rid =>
        (∃ d, JsMap.get rid (users s) = Some d ∧ username d = t) ∧
        out = [(io_to (JStr rid), env); (socket_emit, env)] ∧
        deliveries s id out
          = ((λ c, (c, env)) <$> recipients s id (io_to (JStr rid)))
            ++ [(id, env)] ∧
        (JsMap.has rid (sockets s) = true -> (rid, env) ∈ deliveries s id out) ∧
        (truthy t = true -> JsMap.has rid (sockets s) = true)
    | None =>
        (∀ c d, (c, d) ∈ users s -> username d ≠ t) ∧
        out = [(socket_emit, env)] ∧
        deliveries s id out = [(id, env)]
    end.
Proof.
  intros Hr Hsk Hsd env.
  pose proof (reachable_wf _ Hr) as Hwf.
  pose proof (reachable_live_records _ Hr) as Hlive.
  assert (Hdel : ∀ r, deliveries s id [(io_to r, env); (socket_emit, env)]
    = ((λ c, (c, env)) <$> recipients s id (io_to r)) ++ [(id, env)]).
  { intros r. unfold deliveries. simpl. done. }
  destruct (lookupByUsername t s) as [rid|] eqn:Hlook.
  - destruct (lookupByUsername_Some _ _ _ Hlook) as (d & Hin & Hd).
    pose proof (JsMapFacts.elem_of_get _ _ _ (wf_users _ Hwf) Hin) as Hget.
    assert (Hrid : rid ≠ "").
    { eapply wf_user_ids; [done|]. by eapply JsMapFacts.get_Some_key. }
    exists [(io_to (JStr rid), env); (socket_emit, env)].
    split.
    { unfold on_event, on_private_message. rewrite Hsk, Hsd, Hlook. simpl.
      by rewrite bool_decide_eq_false_2. }
    split_and!; [by exists d|done|apply Hdel| |].
    + unfold JsMap.has. destruct (JsMap.get rid (sockets s)) as [skr|] eqn:Hskr;
        [intros _|done].
      rewrite Hdel. apply elem_of_app. left.
      apply list_elem_of_fmap. exists rid. split; [done|].
      apply recipients_io_to. exists skr.
      split; [by apply JsMapFacts.get_Some_elem_of|].
      eapply wf_own_room; [done|]. by apply JsMapFacts.get_Some_elem_of.
    + intros Ht. rewrite <- Hd in Ht.
      destruct (Hlive rid d Hget Ht) as (skr & Hskr & _).
      unfold JsMap.has. by rewrite Hskr.
  - exists [(socket_emit, env)]. split.
    { unfold on_event, on_private_message. by rewrite Hsk, Hsd, Hlook. }
    split_and!; [|done|done]. by apply lookupByUsername_None.
Qed.

Lemma private_message_routing_witness :
  let env :=
    receive_private (JStr "u") (JStr "v") (JStr "hey") (JStr "text") JNull noon in
  ∃ out,
    on_event noon st_group_of_two "s1"
      (private_message (JStr "v") (JStr "hey") (JStr "text"))
      = Done st_group_of_two out ∧
    match lookupByUsername (JStr "v") st_group_of_two with
    | Some rid =>
        (∃ d, JsMap.get rid (users st_group_of_two) = Some d ∧
              username d = JStr "v") ∧
        out = [(io_to (JStr rid), env); (socket_emit, env)] ∧
        deliveries st_group_of_two "s1" out
          = ((λ c, (c, env)) <$>
               recipients st_group_of_two "s1" (io_to (JStr rid)))
            ++ [("s1", env)] ∧
        (JsMap.has rid (sockets st_group_of_two) = true ->
         (rid, env) ∈ deliveries st_group_of_two "s1" out) ∧
        (truthy (JStr "v") = true ->
         JsMap.has rid (sockets st_group_of_two) = true)
    | None =>
        (∀ c d, (c, d) ∈ users st_group_of_two -> username d ≠ JStr "v") ∧
        out = [(socket_emit, env)] ∧
        deliveries st_group_of_two "s1" out = [("s1", env)]
    end.
Proof.
  apply (private_message_routing noon st_group_of_two "s1"
           (Socket (JStr "u") [JStr "s1"; JStr "u"; JStr "g"])
           (Identity (JStr "u") JNull (JStr "Online")) (JStr "v")
           (JStr "hey") (JStr "text")).
  - apply (run_reachable group_of_two init); [apply reach_init|].
    vm_compute. reflexivity.
  - reflexivity.
  - reflexivity.
Defined.

(** The two cases of the specification, on [st_group_of_two]: a message to
    the registered [v] reaches [s2] and is echoed to [s1]; a message to the
    unregistered [w] is only echoed. *)
Example private_message_delivered :
  match on_event noon st_group_of_two "s1"
          (private_message (JStr "v") (JStr "hey") (JStr "text")) with
  | Done s' out => Some (s', deliveries s' "s1" out)
  | TypeError => None
  end
  = let env :=
      receive_private (JStr "u") (JStr "v") (JStr "hey") (JStr "text") JNull
        noon in
    Some (st_group_of_two, [("s2", env); ("s1", env)]).
Proof. vm_compute. reflexivity. Qed.

Example private_message_dropped :
  match on_event noon st_group_of_two "s1"
          (private_message (JStr "w") (JStr "hey") (JStr "text")) with
  | Done s' out => Some (s', deliveries s' "s1" out)
  | TypeError => None
  end
  = let env :=
      receive_private (JStr "u") (JStr "w") (JStr "hey") (JStr "text") JNull
        noon in
    Some (st_group_of_two, [("s1", env)]).
Proof. vm_compute. reflexivity. Qed.

(** C4 at a failing input.  [s0] logged in under the empty name and
    disconnected; its [currentUser] being falsy, the [disconnect] handler
    left its record in the registry.  [s2] is live and registered under the
    same name.  A private message of [s1] to that name is resolved to the
    record of [s0], emitted to the room of a socket that is gone, and
    reaches nobody but the sender, through the echo: the connection of the
    active Identity named by the message does not receive it. *)
Theorem private_message_stale_recipient :
  run stale_name init = Some st_stale_name ∧
  JsMap.has "s2" (sockets st_stale_name) = true ∧
  (username <$> JsMap.get "s2" (users st_stale_name)) = Some (JStr "") ∧
  JsMap.has "s0" (sockets st_stale_name) = false ∧
  lookupByUsername (JStr "") st_stale_name = Some "s0" ∧
  match on_event noon st_stale_name "s1"
          (private_message (JStr "") (JStr "hey") (JStr "text")) with
  | Done s' out => Some (s', out, deliveries s' "s1" out)
  | TypeError => None
  end
  = let env :=
      receive_private (JStr "a") (JStr "") (JStr "hey") (JStr "text") JNull
        noon in
    Some (st_stale_name,
          [(io_to (JStr "s0"), env); (socket_emit, env)],
          [("s1", env)]).
Proof. repeat split; vm_compute; reflexivity. Qed.

(** ** Group messages (C3) *)

(** C3 at a failing input.  [s1], logged in as [a], created group [g];
    [s2] is logged in under the username [g] and never joined a group, so
    [g]'s only member is [a].  [socket.join(username)] has put [s2] in the
    room named [g], the room [io.to(groupName)] sends to: the message of
    member [a] is delivered to [s2] as well, a connection whose username is
    not a member. *)
Theorem group_message_reaches_non_member :
  run name_clash init = Some st_name_clash ∧
  JsMap.get (JStr "g") (groups st_name_clash) = Some [JStr "a"] ∧
  (username <$> JsMap.get "s1" (users st_name_clash)) = Some (JStr "a") ∧
  (username <$> JsMap.get "s2" (users st_name_clash)) = Some (JStr "g") ∧
  member_of st_name_clash (JStr "g") (JStr "a") = true ∧
  member_of st_name_clash (JStr "g") (JStr "g") = false ∧
  match on_event noon st_name_clash "s1"
          (group_message (JStr "g") (JStr "hi") (JStr "text")) with
  | Done s' out => Some (s', deliveries s' "s1" out)
  | TypeError => None
  end
  = let env :=
      receive_group (JStr "g") (JStr "a") (JStr "hi") (JStr "text") JNull
        noon in
    Some (st_name_clash, [("s1", env); ("s2", env)]).
Proof. repeat split; vm_compute; reflexivity. Qed.

(** Where a group message goes.  A [group_message] from a registered
    sender returns normally and changes no state.  If the group exists and
    the sender's username is a member, the envelope is emitted once, to
    the transport room named by the group, and is delivered to exactly the
    live connections subscribed to that room; the sender's connection
    receives it exactly when it is subscribed itself.  Otherwise nothing is
    emitted: no delivery, no echo, no error. *)
Theorem group_message_routing now s id sk sd g content ty :
  JsMap.get id (sockets s) = Some sk ->
  JsMap.get id (users s) = Some sd ->
  let env := receive_group g (username sd) content ty (avatar sd) now in
  if member_of s g (username sd) then
    on_event now s id (group_message g content ty) = Done s [(io_to g, env)] ∧
    ∀ c p, (c, p) ∈ deliveries s id [(io_to g, env)] <->
           p = env ∧ subscribed s g c
  else
    on_event now s id (group_message g content ty) = Done s [] ∧
    deliveries s id [] = [].
Proof.
  intros Hsk Hsd env. unfold member_of, on_event, on_group_message.
  rewrite Hsk, Hsd. fold env.
  destruct (JsMap.get g (groups s)) as [members|]; [|done].
  destruct (JsSet.has (username sd) members); [|done].
  split; [done|]. intros c p.
  by rewrite elem_of_deliveries_one, recipients_io_to.
Qed.

Lemma group_message_routing_witness :
  let env :=
    receive_group (JStr "g") (JStr "u") (JStr "hi") (JStr "text") JNull noon in
  if member_of st_group_of_two (JStr "g") (JStr "u") then
    on_event noon st_group_of_two "s1"
      (group_message (JStr "g") (JStr "hi") (JStr "text"))
      = Done st_group_of_two [(io_to (JStr "g"), env)] ∧
    ∀ c p, (c, p) ∈ deliveries st_group_of_two "s1" [(io_to (JStr "g"), env)]
           <-> p = env ∧ subscribed st_group_of_two (JStr "g") c
  else
    on_event noon st_group_of_two "s1"
      (group_message (JStr "g") (JStr "hi") (JStr "text"))
      = Done st_group_of_two [] ∧
    deliveries st_group_of_two "s1" [] = [].
Proof.
  apply (group_message_routing noon st_group_of_two "s1"
           (Socket (JStr "u") [JStr "s1"; JStr "u"; JStr "g"])
           (Identity (JStr "u") JNull (JStr "Online")) (JStr "g")
           (JStr "hi") (JStr "text")); reflexivity.
Defined.

(** The scenario of the specification: [u] created [g], [v] joined, a third
    user [w] did not; [u]'s message reaches [s1] and [s2] and not [s3]. *)
Example group_message_team :
  match run (group_of_two ++
             [Connect "s3"; Recv "s3" noon (login (JStr "w") JNull JUndefined)])
          init with
  | Some s =>
      match on_event noon s "s1"
              (group_message (JStr "g") (JStr "hi") (JStr "text")) with
      | Done s' out => Some (deliveries s' "s1" out)
      | TypeError => None
      end
  | None => None
  end
  = let env :=
      receive_group (JStr "g") (JStr "u") (JStr "hi") (JStr "text") JNull
        noon in
    Some [("s1", env); ("s2", env)].
Proof. vm_compute. reflexivity. Qed.

Lemma joined_subscribed s r c : joined s r c -> subscribed s r c.
Proof.
  intros (sk & Hsk & Hr). exists sk.
  split; [by apply JsMapFacts.get_Some_elem_of|done].
Qed.

(** A live connection that creates a group, or joins an existing one, is
    subscribed to its room afterwards. *)
Lemma create_group_subscribes now s id sk g :
  JsMap.get id (sockets s) = Some sk ->
  JsMap.has g (groups s) = false ->
  ∃ s' out, on_event now s id (create_group g) = Done s' out ∧ joined s' g id.
Proof.
  intros Hsk Hg. unfold on_event, on_create_group. rewrite Hsk, Hg. simpl.
  do 2 eexists. split; [reflexivity|].
  destruct (socket_join_get id g
              (with_groups (JsMap.set g [currentUser sk] (groups s)) s)
              id sk Hsk) as (sk' & Hsk' & _ & _ & Hr).
  exists sk'. split; [done|by apply Hr].
Qed.

Lemma join_group_subscribes now s id sk g :
  JsMap.get id (sockets s) = Some sk ->
  JsMap.has g (groups s) = true ->
  ∃ s' out, on_event now s id (join_group g) = Done s' out ∧ joined s' g id.
Proof.
  intros Hsk Hg. unfold on_event, on_join_group. rewrite Hsk.
  unfold JsMap.has in Hg.
  destruct (JsMap.get g (groups s)) as [members|] eqn:Hgm; [|done].
  do 2 eexists. split; [reflexivity|].
  destruct (socket_join_get id g
              (with_groups
                 (JsMap.set g (JsSet.add (currentUser sk) members) (groups s)) s)
              id sk Hsk) as (sk' & Hsk' & _ & _ & Hr).
  exists sk'. split; [done|by apply Hr].
Qed.

(** A subscription lasts until the socket itself disconnects. *)
Lemma joined_kept now s id m s' out r c :
  joined s r c ->
  on_event now s id m = Done s' out ->
  id ≠ c ∨ m ≠ disconnect ->
  joined s' r c.
Proof.
  intros (skc & Hskc & Hr) Hev Hnot. unfold on_event in Hev.
  destruct (JsMap.get id (sockets s)) as [sk|] eqn:Hsk;
    [|simplify_eq; by exists skc].
  destruct m; simpl in Hev.
  - unfold on_check_username in Hev. case_match; simplify_eq; by exists skc.
  - rewrite (on_login_eq _ _ _ _ _ _ Hsk) in Hev. simpl in Hev. simplify_eq.
    unfold joined. simpl. destruct (decide (id = c)) as [->|Hne].
    + rewrite JsMapFacts.get_set_eq. eexists. split; [done|]. simpl.
      simplify_eq. apply JsSetFacts.elem_of_add. by right.
    + rewrite JsMapFacts.get_set_ne by done. by exists skc.
  - unfold on_set_status in Hev. case_match; simplify_eq; by exists skc.
  - unfold on_private_message in Hev. case_match; simplify_eq; by exists skc.
  - unfold on_group_message in Hev. repeat case_match; simplify_eq; by exists skc.
  - unfold on_typing, relay in Hev. repeat case_match; simplify_eq; by exists skc.
  - unfold on_stop_typing, relay in Hev.
    repeat case_match; simplify_eq; by exists skc.
  - unfold on_create_group in Hev. case_match; simplify_eq; [|by exists skc].
    destruct (socket_join_get id groupName
                (with_groups (JsMap.set groupName [currentUser sk] (groups s)) s)
                c skc Hskc) as (sk' & Hsk' & _ & Hrs & _).
    exists sk'. split; [done|by apply Hrs].
  - unfold on_join_group in Hev.
    destruct (JsMap.get groupName (groups s)) as [members|];
      simplify_eq; [|by exists skc].
    destruct (socket_join_get id groupName
                (with_groups
                   (JsMap.set groupName (JsSet.add (currentUser sk) members)
                      (groups s)) s)
                c skc Hskc) as (sk' & Hsk' & _ & Hrs & _).
    exists sk'. split; [done|by apply Hrs].
  - destruct Hnot as [Hne|?]; [|done].
    unfold on_disconnect in Hev. case_match; simplify_eq;
      exists skc; simpl; by rewrite JsMapFacts.get_delete_ne.
  - unfold on_check_username_without_ack in Hev. by case_match.
  - done.
Qed.

(** * Further properties of the server *)

(** ** Login and the availability probe *)

(** X1: a [login] from a live connection always succeeds.  Afterwards the
    registry maps the connection to [{username, avatar, status ||
    'Online'}] and every other record is as before; the record keeps its
    place in the snapshot when the connection already had one and is
    appended otherwise; the name is in the directory, which lost nothing;
    the groups are untouched; the socket's [currentUser] is the name and
    the socket sits in the room of that name; [update_users] goes to
    everyone and [update_groups] to the caller. *)
Theorem login_registers now s id sk u a st :
  JsMap.get id (sockets s) = Some sk ->
  ∃ s',
    on_event now s id (login u a st)
      = Done s' [(io_emit, update_users (getUserList s'));
                 (socket_emit, update_groups (getGroupList s'))] ∧
    JsMap.get id (users s') = Some (Identity u a (js_or st (JStr "Online"))) ∧
    (∀ c, c ≠ id -> JsMap.get c (users s') = JsMap.get c (users s)) ∧
    JsMap.keys (users s')
      = (if JsMap.has id (users s) then JsMap.keys (users s)
         else JsMap.keys (users s) ++ [id]) ∧
    JsSet.has u (usernames s') = true ∧
    (∀ v, v ∈ usernames s -> v ∈ usernames s') ∧
    groups s' = groups s ∧
    JsMap.get id (sockets s')
      = Some (Socket u (JsSet.add u (rooms sk))) ∧
    joined s' u id.
Proof.
  intros Hsk. unfold on_event. rewrite Hsk, (on_login_eq _ _ _ _ _ _ Hsk).
  eexists. split; [reflexivity|]. simpl. split_and!.
  - apply JsMapFacts.get_set_eq.
  - intros c Hc. by apply JsMapFacts.get_set_ne.
  - apply JsMapFacts.keys_set.
  - apply JsSetFacts.has_true, JsSetFacts.elem_of_add. by left.
  - intros v Hv. apply JsSetFacts.elem_of_add. by right.
  - done.
  - apply JsMapFacts.get_set_eq.
  - eexists. split; [apply JsMapFacts.get_set_eq|]. simpl.
    apply JsSetFacts.elem_of_add. by left.
Qed.

Lemma login_registers_witness :
  ∃ s',
    on_event noon st_one_user "s2" (login (JStr "v") JNull JUndefined)
      = Done s' [(io_emit, update_users (getUserList s'));
                 (socket_emit, update_groups (getGroupList s'))] ∧
    JsMap.get "s2" (users s')
      = Some (Identity (JStr "v") JNull (js_or JUndefined (JStr "Online"))) ∧
    (∀ c, c ≠ "s2" -> JsMap.get c (users s') = JsMap.get c (users st_one_user)) ∧
    JsMap.keys (users s')
      = (if JsMap.has "s2" (users st_one_user)
         then JsMap.keys (users st_one_user)
         else JsMap.keys (users st_one_user) ++ ["s2"]) ∧
    JsSet.has (JStr "v") (usernames s') = true ∧
    (∀ v, v ∈ usernames st_one_user -> v ∈ usernames s') ∧
    groups s' = groups st_one_user ∧
    JsMap.get "s2" (sockets s')
      = Some (Socket (JStr "v") (JsSet.add (JStr "v") (rooms (Socket JNull [JStr "s2"])))) ∧
    joined s' (JStr "v") "s2".
Proof.
  apply (login_registers noon st_one_user "s2" (Socket JNull [JStr "s2"])).
  reflexivity.
Defined.

(** X2: once a live connection has logged in as [u], the probe
    [check_username] answers [{available: false}] for [u] to every live
    connection, and changes nothing. *)
Theorem login_then_check_username now now' s id sk u a st :
  JsMap.get id (sockets s) = Some sk ->
  ∃ s' out,
    on_event now s id (login u a st) = Done s' out ∧
    ∀ c, JsMap.has c (sockets s) = true ->
         on_event now' s' c (check_username u)
           = Done s' [(socket_emit, ack_available false)].
Proof.
  intros Hsk. unfold on_event at 1. rewrite Hsk, (on_login_eq _ _ _ _ _ _ Hsk).
  do 2 eexists. split; [reflexivity|]. intros c Hc.
  unfold on_event, on_check_username. simpl.
  assert (∃ skc, JsMap.get c
            (JsMap.set id (Socket u (JsSet.add u (rooms sk))) (sockets s))
          = Some skc) as [skc ->].
  { destruct (decide (id = c)) as [->|Hne].
    - rewrite JsMapFacts.get_set_eq. by eexists.
    - rewrite JsMapFacts.get_set_ne by done. unfold JsMap.has in Hc.
      destruct (JsMap.get c (sockets s)); [by eexists|done]. }
  assert (JsSet.has u (JsSet.add u (usernames s)) = true) as ->; [|done].
  apply JsSetFacts.has_true, JsSetFacts.elem_of_add. by left.
Qed.

Lemma login_then_check_username_witness :
  ∃ s' out,
    on_event noon st_one_user "s2" (login (JStr "v") JNull JUndefined)
      = Done s' out ∧
    ∀ c, JsMap.has c (sockets st_one_user) = true ->
         on_event noon s' c (check_username (JStr "v"))
           = Done s' [(socket_emit, ack_available false)].
Proof.
  apply (login_then_check_username noon noon st_one_user "s2"
           (Socket JNull [JStr "s2"])).
  reflexivity.
Defined.

(** ** Status *)

(** X3: [set_status] from a connection with a registry record stores the
    given status as it is (no default is applied), keeps the record's
    username and avatar, its place in the snapshot and every other record,
    leaves directory, groups and sockets alone, and broadcasts
    [update_users]; from a live connection without record it does nothing
    and emits nothing. *)
Theorem set_status_effect now s id sk st :
  JsMap.get id (sockets s) = Some sk ->
  match JsMap.get id (users s) with
  | Some d =>
      ∃ s',
        on_event now s id (set_status st)
          = Done s' [(io_emit, update_users (getUserList s'))] ∧
        JsMap.get id (users s') = Some (Identity (username d) (avatar d) st) ∧
        (∀ c, c ≠ id -> JsMap.get c (users s') = JsMap.get c (users s)) ∧
        JsMap.keys (users s') = JsMap.keys (users s) ∧
        usernames s' = usernames s ∧ groups s' = groups s ∧
        sockets s' = sockets s
  | None => on_event now s id (set_status st) = Done s []
  end.
Proof.
  intros Hsk. unfold on_event, on_set_status. rewrite Hsk.
  destruct (JsMap.get id (users s)) as [d|] eqn:Hd; [|done].
  eexists. split; [reflexivity|]. simpl. split_and!; try done.
  - apply JsMapFacts.get_set_eq.
  - intros c Hc. by apply JsMapFacts.get_set_ne.
  - rewrite JsMapFacts.keys_set. unfold JsMap.has. by rewrite Hd.
Qed.

Lemma set_status_effect_witness :
  match JsMap.get "s1" (users st_one_user) with
  | Some d =>
      ∃ s',
        on_event noon st_one_user "s1" (set_status (JStr "Busy"))
          = Done s' [(io_emit, update_users (getUserList s'))] ∧
        JsMap.get "s1" (users s')
          = Some (Identity (username d) (avatar d) (JStr "Busy")) ∧
        (∀ c, c ≠ "s1" ->
              JsMap.get c (users s') = JsMap.get c (users st_one_user)) ∧
        JsMap.keys (users s') = JsMap.keys (users st_one_user) ∧
        usernames s' = usernames st_one_user ∧
        groups s' = groups st_one_user ∧
        sockets s' = sockets st_one_user
  | None =>
      on_event noon st_one_user "s1" (set_status (JStr "Busy"))
        = Done st_one_user []
  end.
Proof.
  apply (set_status_effect noon st_one_user "s1"
           (Socket (JStr "u") [JStr "s1"; JStr "u"])).
  reflexivity.
Defined.

(** X4: of two [set_status] events in a row from the same registered
    connection the last one wins: the state is the one a single
    [set_status] with the second status leaves. *)
Theorem set_status_last_wins now now' s id sk d st1 st2 :
  JsMap.get id (sockets s) = Some sk ->
  JsMap.get id (users s) = Some d ->
  ∃ s1 out1 s2 out2,
    on_event now s id (set_status st1) = Done s1 out1 ∧
    on_event now' s1 id (set_status st2) = Done s2 out2 ∧
    on_event now' s id (set_status st2) = Done s2 out2.
Proof.
  intros Hsk Hd.
  set (s1 := with_users
               (JsMap.set id (Identity (username d) (avatar d) st1) (users s)) s).
  set (s2 := with_users
               (JsMap.set id (Identity (username d) (avatar d) st2) (users s)) s).
  exists s1, [(io_emit, update_users (getUserList s1))],
         s2, [(io_emit, update_users (getUserList s2))].
  split_and!.
  - unfold on_event, on_set_status. by rewrite Hsk, Hd.
  - unfold on_event, on_set_status.
    change (sockets s1) with (sockets s). rewrite Hsk.
    change (users s1)
      with (JsMap.set id (Identity (username d) (avatar d) st1) (users s)).
    rewrite JsMapFacts.get_set_eq. simpl. by rewrite JsMapFacts.set_set.
  - unfold on_event, on_set_status. by rewrite Hsk, Hd.
Qed.

Lemma set_status_last_wins_witness :
  ∃ s1 out1 s2 out2,
    on_event noon st_one_user "s1" (set_status (JStr "Busy")) = Done s1 out1 ∧
    on_event noon s1 "s1" (set_status (JStr "Away")) = Done s2 out2 ∧
    on_event noon st_one_user "s1" (set_status (JStr "Away")) = Done s2 out2.
Proof.
  apply (set_status_last_wins noon noon st_one_user "s1"
           (Socket (JStr "u") [JStr "s1"; JStr "u"])
           (Identity (JStr "u") JNull (JStr "Online"))); reflexivity.
Defined.

(** ** Groups *)

Lemma keys_remove_member cu g :
  JsMap.keys (remove_member cu g) = JsMap.keys g.
Proof.
  unfold remove_member, JsMap.keys. rewrite <- list_fmap_compose.
  by apply list_fmap_ext.
Qed.

Lemma get_remove_member cu name g :
  JsMap.get name (remove_member cu g) = JsSet.delete cu <$> JsMap.get name g.
Proof.
  induction g as [|[n ms] g IH]; simpl; [done|].
  by destruct (decide (name = n)).
Qed.

(** X5: [create_group] for a name that already exists is a silent no-op:
    same state, no emission.  For a new name the group is appended to the
    group list with the caller's [currentUser] as only member, every
    existing group keeps its members, registry and directory are untouched,
    the caller is subscribed to the group's room and [update_groups] is
    broadcast. *)
Theorem create_group_effect now s id sk g :
  JsMap.get id (sockets s) = Some sk ->
  if JsMap.has g (groups s) then
    on_event now s id (create_group g) = Done s []
  else
    ∃ s',
      on_event now s id (create_group g)
        = Done s' [(io_emit, update_groups (getGroupList s'))] ∧
      getGroupList s' = getGroupList s ++ [(g, [currentUser sk])] ∧
      users s' = users s ∧ usernames s' = usernames s ∧
      joined s' g id.
Proof.
  intros Hsk. unfold on_event, on_create_group. rewrite Hsk.
  destruct (JsMap.has g (groups s)) eqn:Hg; simpl; [done|].
  eexists. split; [reflexivity|].
  unfold socket_join. simpl. rewrite Hsk. simpl. split_and!; try done.
  - unfold getGroupList. simpl. unfold JsMap.has in Hg.
    clear Hsk. induction (groups s) as [|[n ms] l IH]; simpl; [done|].
    simpl in Hg. destruct (decide (g = n)); [done|]. by rewrite IH.
  - eexists. split; [apply JsMapFacts.get_set_eq|]. simpl.
    apply JsSetFacts.elem_of_add. by left.
Qed.

Lemma create_group_effect_witness :
  if JsMap.has (JStr "g") (groups st_two_names) then
    on_event noon st_two_names "s1" (create_group (JStr "g"))
      = Done st_two_names []
  else
    ∃ s',
      on_event noon st_two_names "s1" (create_group (JStr "g"))
        = Done s' [(io_emit, update_groups (getGroupList s'))] ∧
      getGroupList s'
        = getGroupList st_two_names
          ++ [(JStr "g", [currentUser (Socket (JStr "u") [JStr "s1"; JStr "u"])])] ∧
      users s' = users st_two_names ∧ usernames s' = usernames st_two_names ∧
      joined s' (JStr "g") "s1".
Proof.
  apply (create_group_effect noon st_two_names "s1"
           (Socket (JStr "u") [JStr "s1"; JStr "u"])).
  reflexivity.
Defined.

(** X6: [join_group] on an existing group appends the caller's
    [currentUser] to the member list unless it is there already, keeps the
    other members and their order, and subscribes the caller; a second
    [join_group] from the same connection then changes nothing. *)
Theorem join_group_idempotent now now' s id sk g members :
  JsMap.get id (sockets s) = Some sk ->
  JsMap.get g (groups s) = Some members ->
  ∃ s',
    on_event now s id (join_group g)
      = Done s' [(io_emit, update_groups (getGroupList s'))] ∧
    JsMap.get g (groups s')
      = Some (if JsSet.has (currentUser sk) members then members
              else members ++ [currentUser sk]) ∧
    joined s' g id ∧
    on_event now' s' id (join_group g)
      = Done s' [(io_emit, update_groups (getGroupList s'))].
Proof.
  intros Hsk Hg.
  set (s0 := with_groups
               (JsMap.set g (JsSet.add (currentUser sk) members) (groups s)) s).
  destruct (socket_join_get id g s0 id sk Hsk) as (sk' & Hsk' & Hcu & _ & Hr).
  assert (Hg' : JsMap.get g (groups (socket_join id g s0))
                = Some (JsSet.add (currentUser sk) members)).
  { unfold socket_join. change (sockets s0) with (sockets s). rewrite Hsk.
    simpl. apply JsMapFacts.get_set_eq. }
  exists (socket_join id g s0). split_and!.
  - unfold on_event, on_join_group. by rewrite Hsk, Hg.
  - by rewrite Hg'.
  - exists sk'. split; [done|by apply Hr].
  - apply (join_group_member_noop now' _ id sk' g _ Hsk' Hg').
    + rewrite Hcu. apply JsSetFacts.elem_of_add. by left.
    + by apply Hr.
Qed.

Lemma join_group_idempotent_witness :
  ∃ s',
    on_event noon st_with_group "s2" (join_group (JStr "g"))
      = Done s' [(io_emit, update_groups (getGroupList s'))] ∧
    JsMap.get (JStr "g") (groups s')
      = Some (if JsSet.has (currentUser (Socket JNull [JStr "s2"])) [JStr "u"]
              then [JStr "u"]
              else [JStr "u"] ++ [currentUser (Socket JNull [JStr "s2"])]) ∧
    joined s' (JStr "g") "s2" ∧
    on_event noon s' "s2" (join_group (JStr "g"))
      = Done s' [(io_emit, update_groups (getGroupList s'))].
Proof.
  apply (join_group_idempotent noon noon st_with_group "s2"
           (Socket JNull [JStr "s2"]) (JStr "g") [JStr "u"]); reflexivity.
Defined.

Lemma group_names_on_event now s id m s' out :
  on_event now s id m = Done s' out ->
  JsMap.keys (groups s) `prefix_of` JsMap.keys (groups s').
Proof.
  unfold on_event.
  destruct (JsMap.get id (sockets s)) as [sk|] eqn:Hsk;
    [|intros; by simplify_eq].
  destruct m; simpl.
  - unfold on_check_username. case_match; intros; by simplify_eq.
  - rewrite (on_login_eq _ _ _ _ _ _ Hsk). simpl. intros; by simplify_eq.
  - unfold on_set_status. case_match; intros; by simplify_eq.
  - unfold on_private_message. case_match; intros; by simplify_eq.
  - unfold on_group_message. repeat case_match; intros; by simplify_eq.
  - unfold on_typing, relay. repeat case_match; intros; by simplify_eq.
  - unfold on_stop_typing, relay. repeat case_match; intros; by simplify_eq.
  - unfold on_create_group.
    destruct (JsMap.has groupName (groups s)) eqn:Hg; simpl;
      intros; simplify_eq; [done|].
    unfold socket_join. simpl. rewrite Hsk. simpl.
    rewrite JsMapFacts.keys_set, Hg. by apply prefix_app_r.
  - unfold on_join_group.
    destruct (JsMap.get groupName (groups s)) as [members|] eqn:Hg;
      intros; simplify_eq; [|done].
    unfold socket_join. simpl. rewrite Hsk. simpl.
    rewrite JsMapFacts.keys_set. unfold JsMap.has. by rewrite Hg.
  - unfold on_disconnect. case_match; intros; simplify_eq; simpl; [|done].
    by rewrite keys_remove_member.
  - unfold on_check_username_without_ack. by case_match.
  - done.
Qed.

(** X7: no run ever deletes, renames or reorders a group: the group names
    before a run are a prefix of the group names after it. *)
Theorem groups_never_removed l s s' :
  run l s = Some s' ->
  JsMap.keys (groups s) `prefix_of` JsMap.keys (groups s').
Proof.
  revert s. induction l as [|a l IH]; simpl; intros s Hrun.
  - by simplify_eq.
  - destruct (exec a s) as [s1|] eqn:Hex; [|done].
    transitivity (JsMap.keys (groups s1)); [|by apply IH].
    destruct a as [id|id now m]; simpl in Hex.
    + destruct (decide (fresh_id id s)); by simplify_eq.
    + destruct (on_event now s id m) as [s2 out|] eqn:Hev; [|done].
      simplify_eq. by eapply group_names_on_event.
Qed.

Lemma groups_never_removed_witness :
  JsMap.keys (groups st_with_group) `prefix_of` JsMap.keys (groups st_left_group).
Proof.
  apply (groups_never_removed [Recv "s1" noon disconnect]).
  vm_compute. reflexivity.
Defined.

(** ** Disconnect *)

Lemma keys_delete_iff {V : Type} (k c : string) (m : list (string * V)) :
  c ∈ JsMap.keys (JsMap.delete k m) <-> c ≠ k ∧ c ∈ JsMap.keys m.
Proof.
  unfold JsMap.keys. rewrite !list_elem_of_fmap. split.
  - intros ([c' v] & -> & Hin). apply JsMapFacts.elem_of_delete in Hin as [? ?].
    split; [done|]. by exists (c', v).
  - intros (Hne & [c' v] & -> & Hin). exists (c', v). split; [done|].
    by apply JsMapFacts.elem_of_delete_other.
Qed.

(** X8: when a connection whose [currentUser] is truthy disconnects, only
    its own traces go: the other registry records, the other names of the
    directory, the other members of every group and the other sockets stay
    as they were, and no group disappears.  The [update_users] broadcast
    carries the registry without the leaver's record and reaches exactly
    the connections that remain; the leaver receives nothing. *)
Theorem disconnect_effect now s id sk :
  JsMap.get id (sockets s) = Some sk ->
  truthy (currentUser sk) = true ->
  ∃ s',
    on_event now s id disconnect
      = Done s' [(io_emit, update_users (getUserList s'))] ∧
    getUserList s' = JsMap.values (JsMap.delete id (users s)) ∧
    (∀ c, c ≠ id -> JsMap.get c (users s') = JsMap.get c (users s)) ∧
    (∀ v, v ∈ usernames s' <-> v ≠ currentUser sk ∧ v ∈ usernames s) ∧
    (∀ g, JsMap.get g (groups s')
          = JsSet.delete (currentUser sk) <$> JsMap.get g (groups s)) ∧
    (∀ c, c ≠ id -> JsMap.get c (sockets s') = JsMap.get c (sockets s)) ∧
    (∀ c p, (c, p) ∈ deliveries s' id [(io_emit, update_users (getUserList s'))]
            <-> p = update_users (getUserList s') ∧ c ≠ id ∧
                c ∈ JsMap.keys (sockets s)).
Proof.
  intros Hsk Hcu. unfold on_event, on_disconnect. rewrite Hsk, Hcu.
  eexists. split; [reflexivity|]. split_and!.
  - done.
  - intros c Hc. simpl. by apply JsMapFacts.get_delete_ne.
  - intros v. simpl. apply JsSetFacts.elem_of_remove.
  - intros g. simpl. apply get_remove_member.
  - intros c Hc. simpl. by apply JsMapFacts.get_delete_ne.
  - intros c p. rewrite elem_of_deliveries_one. simpl.
    by rewrite keys_delete_iff.
Qed.

Lemma disconnect_effect_witness :
  ∃ s',
    on_event noon st_group_of_two "s1" disconnect
      = Done s' [(io_emit, update_users (getUserList s'))] ∧
    getUserList s' = JsMap.values (JsMap.delete "s1" (users st_group_of_two)) ∧
    (∀ c, c ≠ "s1" ->
          JsMap.get c (users s') = JsMap.get c (users st_group_of_two)) ∧
    (∀ v, v ∈ usernames s' <->
          v ≠ currentUser (Socket (JStr "u") [JStr "s1"; JStr "u"; JStr "g"]) ∧
          v ∈ usernames st_group_of_two) ∧
    (∀ g, JsMap.get g (groups s')
          = JsSet.delete
              (currentUser (Socket (JStr "u") [JStr "s1"; JStr "u"; JStr "g"]))
            <$> JsMap.get g (groups st_group_of_two)) ∧
    (∀ c, c ≠ "s1" ->
          JsMap.get c (sockets s') = JsMap.get c (sockets st_group_of_two)) ∧
    (∀ c p, (c, p) ∈ deliveries s' "s1" [(io_emit, update_users (getUserList s'))]
            <-> p = update_users (getUserList s') ∧ c ≠ "s1" ∧
                c ∈ JsMap.keys (sockets st_group_of_two)).
Proof.
  apply (disconnect_effect noon st_group_of_two "s1"
           (Socket (JStr "u") [JStr "s1"; JStr "u"; JStr "g"])); reflexivity.
Defined.

(** X9: a connection that logged in under a falsy name (the empty string,
    [null] or [undefined], as the page sends when no name is stored) and
    then disconnects is not cleaned up: [currentUser] is falsy, so the
    handler body is skipped, nothing is emitted, and the record stays in
    the registry, and the name in the directory, with no live socket behind
    them. *)
Theorem disconnect_falsy_name_keeps_record now now' s id sk u a st :
  JsMap.get id (sockets s) = Some sk ->
  truthy u = false ->
  ∃ s1 out1 s2,
    on_event now s id (login u a st) = Done s1 out1 ∧
    on_event now' s1 id disconnect = Done s2 [] ∧
    JsMap.get id (users s2) = Some (Identity u a (js_or st (JStr "Online"))) ∧
    JsSet.has u (usernames s2) = true ∧
    JsMap.get id (sockets s2) = None.
Proof.
  intros Hsk Hu. unfold on_event at 1.
  rewrite Hsk, (on_login_eq _ _ _ _ _ _ Hsk). simpl.
  do 3 eexists. split; [reflexivity|].
  unfold on_event, on_disconnect. simpl. rewrite JsMapFacts.get_set_eq. simpl.
  rewrite Hu. split_and!; [done| | |]; simpl.
  - apply JsMapFacts.get_set_eq.
  - apply JsSetFacts.has_true, JsSetFacts.elem_of_add. by left.
  - apply JsMapFacts.get_delete_eq.
Qed.

Lemma disconnect_falsy_name_keeps_record_witness :
  ∃ s1 out1 s2,
    on_event noon st_one_user "s2" (login JNull JNull JUndefined)
      = Done s1 out1 ∧
    on_event noon s1 "s2" disconnect = Done s2 [] ∧
    JsMap.get "s2" (users s2)
      = Some (Identity JNull JNull (js_or JUndefined (JStr "Online"))) ∧
    JsSet.has JNull (usernames s2) = true ∧
    JsMap.get "s2" (sockets s2) = None.
Proof.
  apply (disconnect_falsy_name_keeps_record noon noon st_one_user "s2"
           (Socket JNull [JStr "s2"])); reflexivity.
Defined.

(** ** Which events throw *)

(** X10: on events whose fields are [null], [undefined] or strings, a
    handler ends in an uncaught [TypeError] exactly when the connection is
    live and one of the following holds: the event is a [check_username]
    without acknowledgement function; it is a [login], [private_message],
    [group_message], [typing] or [stop_typing] without payload object; or
    the connection has no registry record and the handler reads
    [sender.username], which every [private_message] does, a
    [group_message] when the group exists, and a [typing] / [stop_typing]
    when its type is not ['private'] or its target resolves to a
    connection.  So with payload and acknowledgement in place no event of
    a registered connection throws, and [check_username], [login],
    [set_status], [create_group], [join_group] and [disconnect] never
    do. *)
Theorem type_error_iff now s id m :
  on_event now s id m = TypeError <->
  JsMap.has id (sockets s) = true ∧
  match m with
  | check_username_without_ack _ | without_payload _ => True
  | private_message _ _ _ => JsMap.get id (users s) = None
  | group_message g _ _ =>
      JsMap.get id (users s) = None ∧ JsMap.has g (groups s) = true
  | typing t ty | stop_typing t ty =>
      JsMap.get id (users s) = None ∧
      (ty ≠ JStr "private" ∨ is_Some (truthy_id (lookupByUsername t s)))
  | _ => False
  end.
Proof.
  unfold on_event, JsMap.has.
  destruct (JsMap.get id (sockets s)) as [sk|]; [|split; [done|by intros []]].
  destruct m; simpl.
  - unfold on_check_username. case_match; split; try done; by intros (_&[]).
  - unfold on_login. split; [done|by intros (_&[])].
  - unfold on_set_status. case_match; split; try done; by intros (_&[]).
  - unfold on_private_message.
    destruct (JsMap.get id (users s)); split; try done. by intros (_&?).
  - unfold on_group_message.
    destruct (JsMap.get groupName (groups s)), (JsMap.get id (users s));
      repeat case_match; split; try done; try by intros (_&?&?).
  - unfold on_typing, relay.
    destruct (JsMap.get id (users s));
      destruct (decide (type = JStr "private")) as [->|Hty].
    + rewrite bool_decide_eq_true_2 by done.
      case_match; split; try done; by intros (_&?&_).
    + rewrite bool_decide_eq_false_2 by done. split; [done|by intros (_&?&_)].
    + rewrite bool_decide_eq_true_2 by done.
      destruct (truthy_id (lookupByUsername target_ s)); split; try done.
      * intros _. split_and!; try done. right. by eexists.
      * intros (_&_&[?|[? ?]]); done.
    + rewrite bool_decide_eq_false_2 by done. split; [|done].
      intros _. split_and!; try done. by left.
  - unfold on_stop_typing, relay.
    destruct (JsMap.get id (users s));
      destruct (decide (type = JStr "private")) as [->|Hty].
    + rewrite bool_decide_eq_true_2 by done.
      case_match; split; try done; by intros (_&?&_).
    + rewrite bool_decide_eq_false_2 by done. split; [done|by intros (_&?&_)].
    + rewrite bool_decide_eq_true_2 by done.
      destruct (truthy_id (lookupByUsername target_ s)); split; try done.
      * intros _. split_and!; try done. right. by eexists.
      * intros (_&_&[?|[? ?]]); done.
    + rewrite bool_decide_eq_false_2 by done. split; [|done].
      intros _. split_and!; try done. by left.
  - unfold on_create_group. case_match; split; try done; by intros (_&[]).
  - unfold on_join_group. case_match; split; try done; by intros (_&[]).
  - unfold on_disconnect. case_match; split; try done; by intros (_&[]).
  - unfold on_check_username_without_ack. by case_match.
  - done.
Qed.

(** ** Private addressing *)

(** X12: a [typing] / [stop_typing] of type ['private'] from a registered
    sender changes no state.  When the target resolves to a connection the
    signal ([display_typing] with [isGroup: false] and no group, or
    [hide_typing]) is emitted to that connection's room and reaches exactly
    the sockets in it; nothing is echoed to the sender.  When the target is
    unknown nothing is emitted. *)
Theorem private_typing_relay now s id sk sd t :
  reachable s ->
  JsMap.get id (sockets s) = Some sk ->
  JsMap.get id (users s) = Some sd ->
  match lookupByUsername t s with
  | Some rid =>
      let shown := display_typing (username sd) false JUndefined in
      let hidden := hide_typing (username sd) in
      on_event now s id (typing t (JStr "private"))
        = Done s [(io_to (JStr rid), shown)] ∧
      on_event now s id (stop_typing t (JStr "private"))
        = Done s [(io_to (JStr rid), hidden)] ∧
      (∀ c p, (c, p) ∈ deliveries s id [(io_to (JStr rid), shown)]
              <-> p = shown ∧ subscribed s (JStr rid) c) ∧
      (∀ c p, (c, p) ∈ deliveries s id [(io_to (JStr rid), hidden)]
              <-> p = hidden ∧ subscribed s (JStr rid) c)
  | None =>
      on_event now s id (typing t (JStr "private")) = Done s [] ∧
      on_event now s id (stop_typing t (JStr "private")) = Done s []
  end.
Proof.
  intros Hr Hsk Hsd. pose proof (reachable_wf _ Hr) as Hwf.
  destruct (lookupByUsername t s) as [rid|] eqn:Hlook.
  - destruct (lookupByUsername_Some _ _ _ Hlook) as (d & Hin & _).
    assert (Hrid : rid ≠ "").
    { eapply wf_user_ids; [done|].
      apply list_elem_of_fmap. by exists (rid, d). }
    cbv zeta. split_and!.
    + unfold on_event, on_typing, relay. rewrite Hsk, Hsd, Hlook. simpl.
      by rewrite bool_decide_eq_false_2.
    + unfold on_event, on_stop_typing, relay. rewrite Hsk, Hsd, Hlook. simpl.
      by rewrite bool_decide_eq_false_2.
    + intros c p. by rewrite elem_of_deliveries_one, recipients_io_to.
    + intros c p. by rewrite elem_of_deliveries_one, recipients_io_to.
  - split.
    + unfold on_event, on_typing, relay. by rewrite Hsk, Hsd, Hlook.
    + unfold on_event, on_stop_typing, relay. by rewrite Hsk, Hsd, Hlook.
Qed.

Lemma private_typing_relay_witness :
  match lookupByUsername (JStr "v") st_group_of_two with
  | Some rid =>
      let shown := display_typing (JStr "u") false JUndefined in
      let hidden := hide_typing (JStr "u") in
      on_event noon st_group_of_two "s1" (typing (JStr "v") (JStr "private"))
        = Done st_group_of_two [(io_to (JStr rid), shown)] ∧
      on_event noon st_group_of_two "s1"
        (stop_typing (JStr "v") (JStr "private"))
        = Done st_group_of_two [(io_to (JStr rid), hidden)] ∧
      (∀ c p, (c, p) ∈ deliveries st_group_of_two "s1" [(io_to (JStr rid), shown)]
              <-> p = shown ∧ subscribed st_group_of_two (JStr rid) c) ∧
      (∀ c p, (c, p) ∈ deliveries st_group_of_two "s1" [(io_to (JStr rid), hidden)]
              <-> p = hidden ∧ subscribed st_group_of_two (JStr rid) c)
  | None =>
      on_event noon st_group_of_two "s1" (typing (JStr "v") (JStr "private"))
        = Done st_group_of_two [] ∧
      on_event noon st_group_of_two "s1"
        (stop_typing (JStr "v") (JStr "private"))
        = Done st_group_of_two []
  end.
Proof.
  apply (private_typing_relay noon st_group_of_two "s1"
           (Socket (JStr "u") [JStr "s1"; JStr "u"; JStr "g"])
           (Identity (JStr "u") JNull (JStr "Online")) (JStr "v")).
  - apply (run_reachable group_of_two init); [apply reach_init|].
    vm_compute. reflexivity.
  - reflexivity.
  - reflexivity.
Defined.

(** X13: a private message a registered sender addresses to a name that
    resolves to its own connection comes back twice: once through the room
    of its own socket id, once as the echo. *)
Theorem private_message_to_self now s id sk sd t content ty :
  reachable s ->
  JsMap.get id (sockets s) = Some sk ->
  JsMap.get id (users s) = Some sd ->
  lookupByUsername t s = Some id ->
  let env := receive_private (username sd) t content ty (avatar sd) now in
  ∃ out through_room,
    on_event now s id (private_message t content ty) = Done s out ∧
    deliveries s id out = through_room ++ [(id, env)] ∧
    (id, env) ∈ through_room.
Proof.
  intros Hr Hsk Hsd Hlook env. pose proof (reachable_wf _ Hr) as Hwf.
  assert (Hid : id ≠ "") by by eapply live_id_nonempty.
  exists [(io_to (JStr id), env); (socket_emit, env)],
         ((λ c, (c, env)) <$> recipients s id (io_to (JStr id))).
  split_and!.
  - unfold on_event, on_private_message. rewrite Hsk, Hsd, Hlook. simpl.
    by rewrite bool_decide_eq_false_2.
  - unfold deliveries. simpl. done.
  - apply list_elem_of_fmap. exists id. split; [done|].
    apply recipients_io_to. exists sk.
    split; [by apply JsMapFacts.get_Some_elem_of|].
    eapply wf_own_room; [done|]. by apply JsMapFacts.get_Some_elem_of.
Qed.

Lemma private_message_to_self_witness :
  let env :=
    receive_private (JStr "u") (JStr "u") (JStr "memo") (JStr "text") JNull
      noon in
  ∃ out through_room,
    on_event noon st_group_of_two "s1"
      (private_message (JStr "u") (JStr "memo") (JStr "text"))
      = Done st_group_of_two out ∧
    deliveries st_group_of_two "s1" out = through_room ++ [("s1", env)] ∧
    ("s1", env) ∈ through_room.
Proof.
  apply (private_message_to_self noon st_group_of_two "s1"
           (Socket (JStr "u") [JStr "s1"; JStr "u"; JStr "g"])
           (Identity (JStr "u") JNull (JStr "Online")) (JStr "u")
           (JStr "memo") (JStr "text")).
  - apply (run_reachable group_of_two init); [apply reach_init|].
    vm_compute. reflexivity.
  - reflexivity.
  - reflexivity.
  - reflexivity.
Defined.

(** ** Invariants of every run *)

Lemma NoDup_set_delete {A : Type} `{EqDecision A} (x : A) l :
  NoDup l -> NoDup (JsSet.delete x l).
Proof.
  induction l as [|y l IH]; simpl; [done|].
  intros Hnd. apply NoDup_cons in Hnd as [Hy Hnd].
  destruct (decide (x = y)); [auto|].
  apply NoDup_cons. split; [|auto].
  intros Hin. by apply JsSetFacts.elem_of_remove in Hin as [_ ?].
Qed.

Lemma duplicate_free_on_event now s id m s' out :
  duplicate_free s -> on_event now s id m = Done s' out -> duplicate_free s'.
Proof.
  intros (Hu & Hk & Hm). unfold on_event.
  destruct (JsMap.get id (sockets s)) as [sk|] eqn:Hsk;
    [|intros; by simplify_eq].
  destruct m; simpl.
  - unfold on_check_username. case_match; intros; by simplify_eq.
  - rewrite (on_login_eq _ _ _ _ _ _ Hsk). simpl. intros; simplify_eq.
    split_and!; simpl; [by apply JsSetFacts.NoDup_add|done|done].
  - unfold on_set_status. case_match; intros; by simplify_eq.
  - unfold on_private_message. case_match; intros; by simplify_eq.
  - unfold on_group_message. repeat case_match; intros; by simplify_eq.
  - unfold on_typing, relay. repeat case_match; intros; by simplify_eq.
  - unfold on_stop_typing, relay. repeat case_match; intros; by simplify_eq.
  - unfold on_create_group. case_match; intros; simplify_eq; [|done].
    unfold socket_join. simpl. rewrite Hsk. split_and!; simpl; [done| |].
    + by apply JsMapFacts.NoDup_keys_set.
    + intros g members Hin.
      apply JsMapFacts.elem_of_set in Hin as [[-> ->]|Hin];
        [apply NoDup_singleton|by eapply Hm].
  - unfold on_join_group.
    destruct (JsMap.get groupName (groups s)) as [ms|] eqn:Hg;
      intros; simplify_eq; [|done].
    unfold socket_join. simpl. rewrite Hsk. split_and!; simpl; [done| |].
    + by apply JsMapFacts.NoDup_keys_set.
    + intros g members Hin.
      apply JsMapFacts.elem_of_set in Hin as [[-> ->]|Hin]; [|by eapply Hm].
      apply JsSetFacts.NoDup_add. eapply Hm.
      by apply JsMapFacts.get_Some_elem_of.
  - unfold on_disconnect. case_match; intros; simplify_eq; [|done].
    split_and!; simpl.
    + by apply NoDup_set_delete.
    + by rewrite keys_remove_member.
    + intros g members Hin. unfold remove_member in Hin.
      apply list_elem_of_fmap in Hin as [[n ms] [Heq Hin]]. simpl in Heq.
      simplify_eq. apply NoDup_set_delete. by eapply Hm.
  - unfold on_check_username_without_ack. by case_match.
  - done.
Qed.

(** X14: in every reachable state the Username Directory lists no name
    twice, the group list no group twice and no member list a member
    twice, so neither do the [update_groups] snapshots. *)
Theorem snapshots_duplicate_free s :
  reachable s ->
  NoDup (usernames s) ∧
  NoDup (JsMap.keys (getGroupList s)) ∧
  ∀ g members, (g, members) ∈ getGroupList s -> NoDup members.
Proof.
  change (reachable s -> duplicate_free s).
  induction 1 as [|s id Hr IH Hfresh|s id now m s' out Hr IH Hev].
  - split_and!; simpl; try apply NoDup_nil_2.
    intros g members Hin. by apply elem_of_nil in Hin.
  - done.
  - by eapply duplicate_free_on_event.
Qed.

Lemma snapshots_duplicate_free_witness :
  NoDup (usernames st_group_of_two) ∧
  NoDup (JsMap.keys (getGroupList st_group_of_two)) ∧
  ∀ g members, (g, members) ∈ getGroupList st_group_of_two -> NoDup members.
Proof.
  apply (snapshots_duplicate_free st_group_of_two).
  apply (run_reachable group_of_two init); [apply reach_init|].
  vm_compute. reflexivity.
Defined.

Lemma socket_join_get_inv id' r' s c sk' :
  JsMap.get c (sockets (socket_join id' r' s)) = Some sk' ->
  ∃ sk, JsMap.get c (sockets s) = Some sk ∧ currentUser sk = currentUser sk'.
Proof.
  unfold socket_join.
  destruct (JsMap.get id' (sockets s)) as [sk0|] eqn:Hsk0; simpl.
  - destruct (decide (id' = c)) as [->|Hne].
    + rewrite JsMapFacts.get_set_eq. intros; simplify_eq. by exists sk0.
    + rewrite JsMapFacts.get_set_ne by done. intros. by exists sk'.
  - intros. by exists sk'.
Qed.

Lemma names_agree_join id r s :
  names_agree s -> names_agree (socket_join id r s).
Proof.
  intros Hn c sk' Hsk' Hcu.
  destruct (socket_join_get_inv _ _ _ _ _ Hsk') as (sk & Hsk & Heq).
  assert (users (socket_join id r s) = users s) as ->.
  { unfold socket_join. by destruct (JsMap.get id (sockets s)). }
  rewrite <- Heq in Hcu |- *. by apply Hn.
Qed.

Lemma names_agree_on_event now s id m s' out :
  names_agree s -> on_event now s id m = Done s' out -> names_agree s'.
Proof.
  intros Hn. unfold on_event.
  destruct (JsMap.get id (sockets s)) as [sk|] eqn:Hsk;
    [|intros; by simplify_eq].
  destruct m; simpl.
  - unfold on_check_username. case_match; intros; by simplify_eq.
  - rewrite (on_login_eq _ _ _ _ _ _ Hsk). simpl. intros; simplify_eq.
    intros c skc. simpl. destruct (decide (id = c)) as [<-|Hne].
    + rewrite !JsMapFacts.get_set_eq. intros; simplify_eq. by eexists.
    + rewrite !JsMapFacts.get_set_ne by done. apply Hn.
  - unfold on_set_status.
    destruct (JsMap.get id (users s)) as [d|] eqn:Hd;
      intros; simplify_eq; [|done].
    intros c skc. simpl. intros Hskc Hcu.
    destruct (Hn c skc Hskc Hcu) as (d' & Hd' & Heq).
    destruct (decide (id = c)) as [<-|Hne].
    + rewrite JsMapFacts.get_set_eq. simplify_eq. by eexists.
    + rewrite JsMapFacts.get_set_ne by done. by exists d'.
  - unfold on_private_message. case_match; intros; by simplify_eq.
  - unfold on_group_message. repeat case_match; intros; by simplify_eq.
  - unfold on_typing, relay. repeat case_match; intros; by simplify_eq.
  - unfold on_stop_typing, relay. repeat case_match; intros; by simplify_eq.
  - unfold on_create_group. case_match; intros; simplify_eq; [|done].
    by apply names_agree_join.
  - unfold on_join_group. case_match; intros; simplify_eq; [|done].
    by apply names_agree_join.
  - assert (Hdel : ∀ c skc,
      JsMap.get c (JsMap.delete id (sockets s)) = Some skc ->
      c ≠ id ∧ JsMap.get c (sockets s) = Some skc).
    { intros c skc Hc. destruct (decide (id = c)) as [<-|Hne].
      - by rewrite JsMapFacts.get_delete_eq in Hc.
      - rewrite JsMapFacts.get_delete_ne in Hc by done. by split. }
    unfold on_disconnect. case_match; intros; simplify_eq;
      intros c skc; simpl; intros Hskc Hcu;
      destruct (Hdel _ _ Hskc) as [Hne Hskc'].
    + rewrite JsMapFacts.get_delete_ne by done. by apply Hn.
    + by apply Hn.
  - unfold on_check_username_without_ack. by case_match.
  - done.
Qed.

(** X15: in every reachable state, a live connection whose [currentUser]
    has been set holds a registry record with exactly that username; so
    the name [create_group] and [join_group] put into a member list is the
    caller's registered username, or [null] when it never logged in. *)
Theorem currentUser_matches_record s id sk :
  reachable s ->
  JsMap.get id (sockets s) = Some sk ->
  currentUser sk ≠ JNull ->
  ∃ d, JsMap.get id (users s) = Some d ∧ username d = currentUser sk.
Proof.
  intros Hr. revert id sk. change (names_agree s).
  induction Hr as [|s id Hr IH [_ Hfresh]|s id now m s' out Hr IH Hev].
  - intros id sk Hsk. done.
  - intros c skc. simpl. destruct (decide (id = c)) as [<-|Hne].
    + rewrite JsMapFacts.get_set_eq. intros; by simplify_eq.
    + rewrite JsMapFacts.get_set_ne by done. apply IH.
  - by eapply names_agree_on_event.
Qed.

Lemma currentUser_matches_record_witness :
  ∃ d, JsMap.get "s2" (users st_group_of_two) = Some d ∧
       username d
       = currentUser (Socket (JStr "v") [JStr "s2"; JStr "v"; JStr "g"]).
Proof.
  apply (currentUser_matches_record st_group_of_two "s2").
  - apply (run_reachable group_of_two init); [apply reach_init|].
    vm_compute. reflexivity.
  - reflexivity.
  - discriminate.
Defined.

(** * Properties of the chat page *)

Lemma client_on_keeps_identity p st :
  Client.myUsername (Client.on p st) = Client.myUsername st ∧
  Client.activeChat (Client.on p st) = Client.activeChat st.
Proof.
  destruct p; simpl; try done.
  destruct (Client.activeChat st) eqn:Hc; repeat case_match; simpl;
    by rewrite ?Hc.
Qed.

Lemma client_current_after_add st c msg :
  Client.activeChat st = Some c ->
  Client.currentMessages (Client.addMessage (Client.key c) msg st)
    = Client.currentMessages st ++ [msg].
Proof.
  intros Hc. unfold Client.currentMessages, Client.addMessage. simpl.
  rewrite Hc. by rewrite JsMapFacts.get_set_eq.
Qed.

Lemma client_current_after_add_other st c k msg :
  Client.activeChat st = Some c ->
  k ≠ Client.key c ->
  Client.currentMessages (Client.addMessage k msg st)
    = Client.currentMessages st.
Proof.
  intros Hc Hk. unfold Client.currentMessages, Client.addMessage. simpl.
  rewrite Hc. by rewrite JsMapFacts.get_set_ne.
Qed.

(** ** Threads *)

(** X16: what a user sends in an open private chat shows up in that chat.
    With [t] open and the page's username equal to the username of the
    connection's registry record, [emitMessage] produces a
    [private_message] to [t]; the server echoes its envelope to the
    sending connection, and the page's [receive_private] handler appends
    that envelope to the messages shown for the open chat. *)
Theorem sent_private_message_appears now s sid sk sd st t content ty :
  JsMap.get sid (sockets s) = Some sk ->
  JsMap.get sid (users s) = Some sd ->
  username sd = Client.myUsername st ->
  Client.activeChat st = Some (Client.Chat (JStr "private") t) ->
  let env := receive_private (username sd) t content ty (avatar sd) now in
  ∃ out,
    Client.emitMessage content ty st = Some (private_message t content ty) ∧
    on_event now s sid (private_message t content ty) = Done s out ∧
    (sid, env) ∈ deliveries s sid out ∧
    Client.currentMessages (Client.on env st)
      = Client.currentMessages st ++ [env].
Proof.
  intros Hsk Hsd Hme Hchat env.
  eexists. split_and!.
  - unfold Client.emitMessage. by rewrite Hchat.
  - unfold on_event, on_private_message. rewrite Hsk, Hsd. reflexivity.
  - fold env. unfold deliveries. rewrite flat_map_app. apply elem_of_app.
    right. simpl. apply list_elem_of_here.
  - subst env. simpl. rewrite bool_decide_eq_true_2 by done.
    by apply (client_current_after_add st (Client.Chat (JStr "private") t)).
Qed.

(** A page of user [u] with the chat with [v] open. *)
Lemma sent_private_message_appears_witness :
  let st :=
    Client.selectChat (JStr "private") (JStr "v") (Client.init (JStr "u") JNull) in
  let env :=
    receive_private (JStr "u") (JStr "v") (JStr "hey") (JStr "text") JNull noon in
  ∃ out,
    Client.emitMessage (JStr "hey") (JStr "text") st
      = Some (private_message (JStr "v") (JStr "hey") (JStr "text")) ∧
    on_event noon st_group_of_two "s1"
      (private_message (JStr "v") (JStr "hey") (JStr "text"))
      = Done st_group_of_two out ∧
    ("s1", env) ∈ deliveries st_group_of_two "s1" out ∧
    Client.currentMessages (Client.on env st)
      = Client.currentMessages st ++ [env].
Proof.
  apply (sent_private_message_appears noon st_group_of_two "s1"
           (Socket (JStr "u") [JStr "s1"; JStr "u"; JStr "g"])
           (Identity (JStr "u") JNull (JStr "Online"))
           (Client.selectChat (JStr "private") (JStr "v")
              (Client.init (JStr "u") JNull))
           (JStr "v") (JStr "hey") (JStr "text")); reflexivity.
Defined.

(** X17: what a member sends in an open group chat shows up in that chat.
    With group [g] open, the sender's username a member of [g] and its
    connection subscribed to the room of [g], [emitMessage] produces a
    [group_message] to [g], the server's fan-out reaches the sending
    connection, and the page's [receive_group] handler appends the
    envelope to the messages shown for the open chat. *)
Theorem sent_group_message_appears now s sid sk sd st g content ty :
  JsMap.get sid (sockets s) = Some sk ->
  JsMap.get sid (users s) = Some sd ->
  Client.activeChat st = Some (Client.Chat (JStr "group") g) ->
  member_of s g (username sd) = true ->
  g ∈ rooms sk ->
  let env := receive_group g (username sd) content ty (avatar sd) now in
  Client.emitMessage content ty st = Some (group_message g content ty) ∧
  on_event now s sid (group_message g content ty) = Done s [(io_to g, env)] ∧
  (sid, env) ∈ deliveries s sid [(io_to g, env)] ∧
  Client.currentMessages (Client.on env st)
    = Client.currentMessages st ++ [env].
Proof.
  intros Hsk Hsd Hchat Hmem Hroom env. split_and!.
  - unfold Client.emitMessage. by rewrite Hchat.
  - unfold on_event, on_group_message. rewrite Hsk, Hsd.
    unfold member_of in Hmem.
    destruct (JsMap.get g (groups s)); [|done]. by rewrite Hmem.
  - apply elem_of_deliveries_one. split; [done|].
    apply recipients_io_to. exists sk.
    split; [by apply JsMapFacts.get_Some_elem_of|done].
  - subst env. simpl.
    by apply (client_current_after_add st (Client.Chat (JStr "group") g)).
Qed.

Lemma sent_group_message_appears_witness :
  let st :=
    Client.selectChat (JStr "group") (JStr "g") (Client.init (JStr "u") JNull) in
  let env :=
    receive_group (JStr "g") (JStr "u") (JStr "hi") (JStr "text") JNull noon in
  Client.emitMessage (JStr "hi") (JStr "text") st
    = Some (group_message (JStr "g") (JStr "hi") (JStr "text")) ∧
  on_event noon st_group_of_two "s1"
    (group_message (JStr "g") (JStr "hi") (JStr "text"))
    = Done st_group_of_two [(io_to (JStr "g"), env)] ∧
  ("s1", env) ∈ deliveries st_group_of_two "s1" [(io_to (JStr "g"), env)] ∧
  Client.currentMessages (Client.on env st)
    = Client.currentMessages st ++ [env].
Proof.
  apply (sent_group_message_appears noon st_group_of_two "s1"
           (Socket (JStr "u") [JStr "s1"; JStr "u"; JStr "g"])
           (Identity (JStr "u") JNull (JStr "Online"))
           (Client.selectChat (JStr "group") (JStr "g")
              (Client.init (JStr "u") JNull))
           (JStr "g") (JStr "hi") (JStr "text")).
  - reflexivity.
  - reflexivity.
  - reflexivity.
  - reflexivity.
  - vm_compute. do 2 apply list_elem_of_further. apply list_elem_of_here.
Defined.

(** X18: a private message from somebody else is filed under the chat
    with its sender: once the user opens that chat, the message is the last
    one shown. *)
Theorem incoming_private_message_thread st from_ to_ content ty av ts :
  from_ ≠ Client.myUsername st ->
  let env := receive_private from_ to_ content ty av ts in
  Client.currentMessages
    (Client.selectChat (JStr "private") from_ (Client.on env st))
  = default [] (JsMap.get ("private:" +:+ Client.template from_)
                  (Client.messages st)) ++ [env].
Proof.
  intros Hne env. unfold Client.selectChat.
  destruct (client_on_keeps_identity env st) as [-> _].
  rewrite (bool_decide_eq_false_2 (from_ = _)) by done.
  rewrite andb_false_r. subst env. simpl.
  rewrite (bool_decide_eq_false_2 (from_ = _)) by done.
  unfold Client.currentMessages, Client.addMessage, Client.key. simpl.
  by rewrite JsMapFacts.get_set_eq.
Qed.

Lemma incoming_private_message_thread_witness :
  let st := Client.init (JStr "v") JNull in
  let env :=
    receive_private (JStr "u") (JStr "v") (JStr "hey") (JStr "text") JNull noon in
  Client.currentMessages
    (Client.selectChat (JStr "private") (JStr "u") (Client.on env st))
  = default [] (JsMap.get ("private:" +:+ Client.template (JStr "u"))
                  (Client.messages st)) ++ [env].
Proof.
  apply (incoming_private_message_thread (Client.init (JStr "v") JNull)
           (JStr "u") (JStr "v") (JStr "hey") (JStr "text") JNull noon).
  discriminate.
Defined.

(** X19: private and group threads never mix.  While a private chat is
    open no [receive_group] event changes the messages shown, and while a
    group chat is open no [receive_private] event does. *)
Theorem threads_do_not_mix st c :
  Client.activeChat st = Some c ->
  (Client.type c = JStr "private" ->
   ∀ group from_ content ty av ts,
     Client.currentMessages
       (Client.on (receive_group group from_ content ty av ts) st)
     = Client.currentMessages st) ∧
  (Client.type c = JStr "group" ->
   ∀ from_ to_ content ty av ts,
     Client.currentMessages
       (Client.on (receive_private from_ to_ content ty av ts) st)
     = Client.currentMessages st).
Proof.
  intros Hc. split; intros Hty **; simpl;
    apply (client_current_after_add_other st c); try done;
    unfold Client.key; rewrite Hty; simpl; discriminate.
Qed.

Lemma threads_do_not_mix_witness :
  let st :=
    Client.selectChat (JStr "private") (JStr "v") (Client.init (JStr "u") JNull) in
  let c := Client.Chat (JStr "private") (JStr "v") in
  (Client.type c = JStr "private" ->
   ∀ group from_ content ty av ts,
     Client.currentMessages
       (Client.on (receive_group group from_ content ty av ts) st)
     = Client.currentMessages st) ∧
  (Client.type c = JStr "group" ->
   ∀ from_ to_ content ty av ts,
     Client.currentMessages
       (Client.on (receive_private from_ to_ content ty av ts) st)
     = Client.currentMessages st).
Proof.
  apply (threads_do_not_mix
           (Client.selectChat (JStr "private") (JStr "v")
              (Client.init (JStr "u") JNull))
           (Client.Chat (JStr "private") (JStr "v"))).
  reflexivity.
Defined.

(** ** Typing indicator *)

Lemma client_reachable_inv me av st :
  Client.reachable me av st ->
  Client.myUsername st = me ∧
  ∀ c, Client.activeChat st = Some c ->
       Client.type c = JStr "private" -> Client.id c ≠ me.
Proof.
  induction 1 as [|st ty i Hr [IHme IHc]|st p Hr [IHme IHc]].
  - split; [done|]. intros c Hc. done.
  - unfold Client.selectChat.
    destruct (bool_decide (ty = JStr "private")
              && bool_decide (i = Client.myUsername st)) eqn:Hguard;
      [by split|].
    split; [done|]. simpl. intros c Hc Hty Hid. simplify_eq. simpl in *.
    subst ty. rewrite bool_decide_eq_true_2 in Hguard by done.
    by rewrite bool_decide_eq_true_2 in Hguard.
  - destruct (client_on_keeps_identity p st) as [-> ->]. by split.
Qed.

(** X20: a page never has the private chat with its own user open
    ([selectChat] refuses it), and therefore never displays its own typing:
    a [display_typing] signal whose [from] is the page's own username,
    group or private, leaves the page as it is. *)
Theorem own_typing_never_shown me av st :
  Client.reachable me av st ->
  (∀ c, Client.activeChat st = Some c ->
        Client.type c = JStr "private" -> Client.id c ≠ me) ∧
  ∀ isGroup g, Client.on (display_typing me isGroup g) st = st.
Proof.
  intros Hr. destruct (client_reachable_inv _ _ _ Hr) as [Hme Hc].
  split; [done|]. intros isGroup g. simpl.
  destruct (Client.activeChat st) as [c|] eqn:Hchat; [|done].
  rewrite Hme. rewrite (bool_decide_eq_false_2 (me ≠ me)) by auto.
  destruct (isGroup && bool_decide (Client.type c = JStr "group")
            && bool_decide (Client.id c = g)); [done|].
  destruct (negb isGroup && bool_decide (Client.type c = JStr "private")
            && bool_decide (Client.id c = me)) eqn:Hguard; [|done].
  apply andb_true_iff in Hguard as [Hguard Hid].
  apply andb_true_iff in Hguard as [_ Hty].
  apply bool_decide_eq_true in Hid, Hty. by destruct (Hc c eq_refl Hty).
Qed.

Lemma own_typing_never_shown_witness :
  let st :=
    Client.selectChat (JStr "private") (JStr "u")
      (Client.selectChat (JStr "group") (JStr "g")
         (Client.init (JStr "u") JNull)) in
  (∀ c, Client.activeChat st = Some c ->
        Client.type c = JStr "private" -> Client.id c ≠ JStr "u") ∧
  ∀ isGroup g, Client.on (display_typing (JStr "u") isGroup g) st = st.
Proof.
  apply (own_typing_never_shown (JStr "u") JNull).
  do 2 apply Client.reach_select. apply Client.reach_init.
Defined.

(** X21: the typing indicator changes only for the open chat: if a
    [display_typing] signal alters [typingInfo], a chat is open, the new
    text is [`${from} is typing...`], and either the signal is a group
    signal for the open group chat from another user, or it is a private
    signal from the user of the open private chat. *)
Theorem typing_only_for_open_chat st from_ isGroup g :
  Client.typingInfo (Client.on (display_typing from_ isGroup g) st)
    ≠ Client.typingInfo st ->
  ∃ c,
    Client.activeChat st = Some c ∧
    Client.typingInfo (Client.on (display_typing from_ isGroup g) st)
      = Client.template from_ +:+ " is typing..." ∧
    if isGroup
    then Client.type c = JStr "group" ∧ Client.id c = g ∧
         from_ ≠ Client.myUsername st
    else Client.type c = JStr "private" ∧ Client.id c = from_.
Proof.
  simpl. destruct (Client.activeChat st) as [c|]; [|done].
  intros Hchange. exists c. split; [done|].
  destruct isGroup; simpl in *.
  - destruct (bool_decide (Client.type c = JStr "group")) eqn:Hty;
      simpl in *; [|done].
    destruct (bool_decide (Client.id c = g)) eqn:Hid; simpl in *; [|done].
    destruct (bool_decide (from_ ≠ Client.myUsername st)) eqn:Hfrom; [|done].
    apply bool_decide_eq_true in Hty, Hid, Hfrom. done.
  - destruct (bool_decide (Client.type c = JStr "private")) eqn:Hty;
      simpl in *; [|done].
    destruct (bool_decide (Client.id c = from_)) eqn:Hid; simpl in *; [|done].
    apply bool_decide_eq_true in Hty, Hid. done.
Qed.

Lemma typing_only_for_open_chat_witness :
  let st :=
    Client.selectChat (JStr "group") (JStr "g") (Client.init (JStr "u") JNull) in
  ∃ c,
    Client.activeChat st = Some c ∧
    Client.typingInfo (Client.on (display_typing (JStr "v") true (JStr "g")) st)
      = Client.template (JStr "v") +:+ " is typing..." ∧
    if true
    then Client.type c = JStr "group" ∧ Client.id c = JStr "g" ∧
         JStr "v" ≠ Client.myUsername st
    else Client.type c = JStr "private" ∧ Client.id c = JStr "v".
Proof.
  apply (typing_only_for_open_chat
           (Client.selectChat (JStr "group") (JStr "g")
              (Client.init (JStr "u") JNull))
           (JStr "v") true (JStr "g")).
  vm_compute. discriminate.
Defined.

(** ** Presence on the page *)

Lemma groups_socket_join id r s : groups (socket_join id r s) = groups s.
Proof. unfold socket_join. by destruct (JsMap.get id (sockets s)). Qed.

(** X22: after a connection joins an existing group, or creates a new
    one, the [update_groups] broadcast reaches that connection, and a page
    whose username is the connection's [currentUser] then reports itself a
    member of the group ([isMember] returns [true]). *)
Theorem membership_shown_after_join now s sid sk g st :
  JsMap.get sid (sockets s) = Some sk ->
  currentUser sk = Client.myUsername st ->
  ∃ s' snapshot,
    on_event now s sid
      (if JsMap.has g (groups s) then join_group g else create_group g)
      = Done s' [(io_emit, update_groups snapshot)] ∧
    (sid, update_groups snapshot)
      ∈ deliveries s' sid [(io_emit, update_groups snapshot)] ∧
    Client.isMember g (Client.on (update_groups snapshot) st) = Some true.
Proof.
  intros Hsk Hme.
  assert (Hlive : ∀ s0, sockets s0 = sockets s ->
            sid ∈ recipients (socket_join sid g s0) sid io_emit).
  { intros s0 Hs0. rewrite <- Hs0 in Hsk.
    destruct (socket_join_get sid g s0 sid sk Hsk) as (sk' & Hsk' & _).
    simpl. by eapply JsMapFacts.get_Some_key. }
  unfold JsMap.has.
  destruct (JsMap.get g (groups s)) as [members|] eqn:Hg.
  - do 2 eexists. split_and!.
    + unfold on_event, on_join_group. rewrite Hsk, Hg. reflexivity.
    + apply elem_of_deliveries_one. split; [done|]. by apply Hlive.
    + unfold Client.isMember, getGroupList. simpl.
      rewrite groups_socket_join. simpl. rewrite JsMapFacts.get_set_eq.
      rewrite bool_decide_eq_true_2; [done|].
      rewrite <- Hme. apply JsSetFacts.elem_of_add. by left.
  - do 2 eexists. split_and!.
    + unfold on_event, on_create_group, JsMap.has. rewrite Hsk, Hg. reflexivity.
    + apply elem_of_deliveries_one. split; [done|]. by apply Hlive.
    + unfold Client.isMember, getGroupList. simpl.
      rewrite groups_socket_join. simpl. rewrite JsMapFacts.get_set_eq.
      rewrite bool_decide_eq_true_2; [done|].
      rewrite <- Hme. apply list_elem_of_here.
Qed.

Lemma membership_shown_after_join_witness :
  ∃ s' snapshot,
    on_event noon st_two_names "s2"
      (if JsMap.has (JStr "g") (groups st_two_names)
       then join_group (JStr "g") else create_group (JStr "g"))
      = Done s' [(io_emit, update_groups snapshot)] ∧
    ("s2", update_groups snapshot)
      ∈ deliveries s' "s2" [(io_emit, update_groups snapshot)] ∧
    Client.isMember (JStr "g")
      (Client.on (update_groups snapshot) (Client.init (JStr "v") JNull))
    = Some true.
Proof.
  apply (membership_shown_after_join noon st_two_names "s2"
           (Socket (JStr "v") [JStr "s2"; JStr "v"]) (JStr "g")
           (Client.init (JStr "v") JNull)); reflexivity.
Defined.

(** X23: when a connection logs in as [u], the [update_users] broadcast
    reaches every connection that was live, and every page whose own
    username is not [u] then lists the new record; no page ever lists a
    record carrying its own username. *)
Theorem login_shown_to_others now s id sk u a st0 :
  JsMap.get id (sockets s) = Some sk ->
  ∃ s' snapshot rest,
    on_event now s id (login u a st0)
      = Done s' ((io_emit, update_users snapshot) :: rest) ∧
    (∀ c, JsMap.has c (sockets s) = true ->
          (c, update_users snapshot)
            ∈ deliveries s' id [(io_emit, update_users snapshot)]) ∧
    (∀ st, Client.myUsername st ≠ u ->
           Identity u a (js_or st0 (JStr "Online"))
             ∈ Client.users (Client.on (update_users snapshot) st)) ∧
    (∀ st x, x ∈ Client.users (Client.on (update_users snapshot) st) ->
             username x ≠ Client.myUsername st).
Proof.
  intros Hsk. unfold on_event. rewrite Hsk, (on_login_eq _ _ _ _ _ _ Hsk).
  do 3 eexists. split; [reflexivity|]. split_and!.
  - intros c Hc. apply elem_of_deliveries_one. split; [done|]. simpl.
    rewrite JsMapFacts.keys_set. unfold JsMap.has in Hc |- *. rewrite Hsk.
    destruct (JsMap.get c (sockets s)) eqn:Hget; [|done].
    by eapply JsMapFacts.get_Some_key.
  - intros st Hst. simpl. apply list_elem_of_filter. split; [simpl; congruence|].
    unfold getUserList, JsMap.values. simpl.
    apply list_elem_of_fmap.
    exists (id, Identity u a (js_or st0 (JStr "Online"))).
    split; [done|]. apply JsMapFacts.elem_of_set_new.
  - intros st x Hx. simpl in Hx. by apply list_elem_of_filter in Hx as [? _].
Qed.

Lemma login_shown_to_others_witness :
  ∃ s' snapshot rest,
    on_event noon st_one_user "s2" (login (JStr "v") JNull JUndefined)
      = Done s' ((io_emit, update_users snapshot) :: rest) ∧
    (∀ c, JsMap.has c (sockets st_one_user) = true ->
          (c, update_users snapshot)
            ∈ deliveries s' "s2" [(io_emit, update_users snapshot)]) ∧
    (∀ st, Client.myUsername st ≠ JStr "v" ->
           Identity (JStr "v") JNull (js_or JUndefined (JStr "Online"))
             ∈ Client.users (Client.on (update_users snapshot) st)) ∧
    (∀ st x, x ∈ Client.users (Client.on (update_users snapshot) st) ->
             username x ≠ Client.myUsername st).
Proof.
  apply (login_shown_to_others noon st_one_user "s2" (Socket JNull [JStr "s2"])).
  reflexivity.
Defined.

(** ** Avatars *)

Lemma find_after_update_users (u me : jval) (m : list (string * identity)) :
  u ≠ me ->
  List.find (λ x, bool_decide (username x = u))
    (filter (λ x, username x ≠ me) (JsMap.values m))
  = snd <$> List.find (λ e, bool_decide (username e.2 = u)) m.
Proof.
  intros Hne. unfold JsMap.values.
  induction m as [|[c d] m IH]; csimpl; [done|].
  destruct (decide (username d = u)) as [Hd|Hd].
  - rewrite filter_cons_True by congruence. simpl.
    by rewrite bool_decide_eq_true_2.
  - rewrite (bool_decide_eq_false_2 (username d = u)) by done.
    destruct (decide (username d ≠ me)).
    + rewrite filter_cons_True by done. simpl.
      by rewrite bool_decide_eq_false_2.
    + by rewrite filter_cons_False.
Qed.

Lemma find_key_as_find (u : jval) (m : list (string * identity)) :
  JsMap.find_key (λ _ data, bool_decide (username data = u)) m
  = fst <$> List.find (λ e, bool_decide (username e.2 = u)) m.
Proof.
  induction m as [|[c d] m IH]; simpl; [done|]. by case_match.
Qed.

(** X24: after an [update_users] snapshot, the avatar the page shows for
    another user's name is the avatar of the connection that name resolves
    to on the server (the earliest registry entry carrying it); a name nobody holds
    gets the placeholder, and the page's own name its own avatar. *)
Theorem avatar_shown_is_resolved s st u :
  reachable s ->
  let st' := Client.on (update_users (getUserList s)) st in
  Client.getAvatar (Client.myUsername st) st' = Client.myAvatar st ∧
  (u ≠ Client.myUsername st ->
   Client.getAvatar u st'
   = match lookupByUsername u s ≫= (λ rid, JsMap.get rid (users s)) with
     | Some d => avatar d
     | None => JStr Client.placeholder
     end).
Proof.
  intros Hr st'. pose proof (wf_users _ (reachable_wf _ Hr)) as Hnd.
  split.
  - unfold Client.getAvatar. subst st'. simpl.
    by rewrite bool_decide_eq_true_2.
  - intros Hu. unfold Client.getAvatar. subst st'. simpl.
    rewrite bool_decide_eq_false_2 by done.
    unfold getUserList. rewrite find_after_update_users by done.
    unfold lookupByUsername. rewrite find_key_as_find.
    destruct (List.find _ (users s)) as [[rid d]|] eqn:Hfind; simpl; [|done].
    apply find_some in Hfind as [Hin _].
    apply list_elem_of_In in Hin.
    by rewrite (JsMapFacts.elem_of_get _ _ _ Hnd Hin).
Qed.

Lemma avatar_shown_is_resolved_witness :
  let st := Client.init (JStr "u") JNull in
  let st' := Client.on (update_users (getUserList st_two_users)) st in
  Client.getAvatar (Client.myUsername st) st' = Client.myAvatar st ∧
  (JStr "v" ≠ Client.myUsername st ->
   Client.getAvatar (JStr "v") st'
   = match lookupByUsername (JStr "v") st_two_users
           ≫= (λ rid, JsMap.get rid (users st_two_users)) with
     | Some d => avatar d
     | None => JStr Client.placeholder
     end).
Proof.
  apply (avatar_shown_is_resolved st_two_users (Client.init (JStr "u") JNull)
           (JStr "v")).
  apply (run_reachable
           (one_user ++
            [Recv "s2" noon (login (JStr "u") (JStr "pic") JUndefined)])
           init); [apply reach_init|].
  vm_compute. reflexivity.
Defined.

(** * Subscriptions and memberships over time *)

(** X25: the server never takes a live connection out of a room: over any
    run in which connection [c] does not disconnect, [c] stays subscribed
    to every room it was subscribed to. *)
Theorem subscription_lasts l s s' r c :
  joined s r c ->
  (∀ now, Recv c now disconnect ∉ l) ->
  run l s = Some s' ->
  joined s' r c.
Proof.
  revert s. induction l as [|a l IH]; simpl; intros s Hj Hno Hrun.
  - by simplify_eq.
  - destruct (exec a s) as [s1|] eqn:Hex; [|done].
    apply (IH s1); [|intros now Hin; apply (Hno now), elem_of_cons; by right|done].
    destruct a as [id|id now m]; simpl in Hex.
    + destruct (decide (fresh_id id s)) as [[_ Hfresh]|]; [|done]. simplify_eq.
      destruct Hj as (sk & Hsk & Hr). exists sk. split; [|done]. simpl.
      rewrite JsMapFacts.get_set_ne; [done|]. intros ->. congruence.
    + destruct (on_event now s id m) as [s2 out|] eqn:Hev; [|done].
      simplify_eq. eapply joined_kept; [done|done|].
      destruct (decide (id = c)) as [->|]; [|by left]. right. intros ->.
      apply (Hno now), elem_of_cons. by left.
Qed.

Lemma subscription_lasts_witness :
  joined st_left_group (JStr "s2") "s2".
Proof.
  apply (subscription_lasts [Recv "s1" noon disconnect] st_with_group).
  - exists (Socket JNull [JStr "s2"]). split; [reflexivity|].
    apply list_elem_of_here.
  - intros now Hin. apply list_elem_of_singleton in Hin. discriminate Hin.
  - vm_compute. reflexivity.
Defined.

(** X26: group membership does not survive a disconnect.  After a
    connection whose [currentUser] is the truthy name [u] disconnects, [u]
    is a member of no group; when a new connection then logs in as [u], a
    [group_message] it sends to any group is dropped without emission
    until it joins again. *)
Theorem membership_lost_on_disconnect now s id sk id2 a st g content ty :
  JsMap.get id (sockets s) = Some sk ->
  truthy (currentUser sk) = true ->
  id2 ≠ "" ->
  JsMap.get id2 (sockets s) = None ∨ id2 = id ->
  ∃ s1 out1 s2 out2,
    on_event now s id disconnect = Done s1 out1 ∧
    (∀ g', member_of s1 g' (currentUser sk) = false) ∧
    fresh_id id2 s1 ∧
    on_event now (connection id2 s1) id2 (login (currentUser sk) a st)
      = Done s2 out2 ∧
    on_event now s2 id2 (group_message g content ty) = Done s2 [].
Proof.
  intros Hsk Hcu Hid2 Hfresh.
  set (s1 := with_groups (remove_member (currentUser sk) (groups s))
               (with_users (JsMap.delete id (users s))
                  (with_usernames (JsSet.delete (currentUser sk) (usernames s))
                     (with_sockets (JsMap.delete id (sockets s)) s)))).
  assert (Hmem : ∀ g', member_of s1 g' (currentUser sk) = false).
  { intros g'. unfold member_of. subst s1. simpl. rewrite get_remove_member.
    destruct (JsMap.get g' (groups s)) as [ms|]; simpl; [|done].
    apply JsSetFacts.has_false. intros Hin.
    by apply JsSetFacts.elem_of_remove in Hin as [? _]. }
  assert (Hfresh1 : fresh_id id2 s1).
  { split; [done|]. subst s1. simpl. destruct Hfresh as [Hnone| ->].
    - destruct (decide (id = id2)) as [->|Hne];
        [apply JsMapFacts.get_delete_eq|by rewrite JsMapFacts.get_delete_ne].
    - apply JsMapFacts.get_delete_eq. }
  assert (Hsk2 : JsMap.get id2 (sockets (connection id2 s1))
                 = Some (Socket JNull [JStr id2])).
  { simpl. apply JsMapFacts.get_set_eq. }
  exists s1. do 3 eexists. split_and!.
  - unfold on_event, on_disconnect. rewrite Hsk, Hcu. reflexivity.
  - exact Hmem.
  - exact Hfresh1.
  - unfold on_event. rewrite Hsk2, (on_login_eq _ _ _ _ _ _ Hsk2). reflexivity.
  - unfold on_event, on_group_message. simpl.
    rewrite !JsMapFacts.get_set_eq.
    specialize (Hmem g). unfold member_of in Hmem. subst s1. simpl in Hmem.
    destruct (JsMap.get g (remove_member (currentUser sk) (groups s)));
      [|done].
    simpl. by rewrite Hmem.
Qed.

Lemma membership_lost_on_disconnect_witness :
  ∃ s1 out1 s2 out2,
    on_event noon st_group_of_two "s2" disconnect = Done s1 out1 ∧
    (∀ g', member_of s1 g'
             (currentUser (Socket (JStr "v") [JStr "s2"; JStr "v"; JStr "g"]))
           = false) ∧
    fresh_id "s3" s1 ∧
    on_event noon (connection "s3" s1) "s3"
      (login (currentUser (Socket (JStr "v") [JStr "s2"; JStr "v"; JStr "g"]))
         JNull JUndefined)
      = Done s2 out2 ∧
    on_event noon s2 "s3" (group_message (JStr "g") (JStr "hi") (JStr "text"))
      = Done s2 [].
Proof.
  apply (membership_lost_on_disconnect noon st_group_of_two "s2"
           (Socket (JStr "v") [JStr "s2"; JStr "v"; JStr "g"]) "s3").
  - reflexivity.
  - reflexivity.
  - discriminate.
  - left. reflexivity.
Defined.
